(** * Gerador de celulares BR: a shallow embedding of
      [gerador_de_celulares_br.py] and the properties of its generation core.

    The Python functions [is_trivially_invalid], [gen_local_9digits],
    [gen_number_for_ddd] and [generate] are translated one by one.  Python
    exceptions and the possible divergence of the redraw loop are explicit in
    the result type; the entropy source behind [random.SystemRandom] and the
    standard output are explicit in the state.  Strings are sequences of
    bytes (UTF-8): on ASCII text, which is all the generator ever builds,
    a byte is a character of the program. *)

From Stdlib Require Import ZArith String Ascii List DecimalString DecimalZ
  DecimalPos Lia Sorted.
From stdpp Require Import base gmap sets list strings.

Open Scope string_scope.
Open Scope Z_scope.
Open Scope list_scope.

(** ** Python primitives *)

Module Py.

(** The exceptions the modelled code can raise. *)
Inductive exn := ValueError | IndexError | ZeroDivisionError.

(** Outcome of a computation: a value, a raised exception, or a loop that
    was still running when the fuel of the model ran out. *)
Inductive res (A : Type) : Type :=
| Ok (a : A)
| Raise (e : exn)
| OutOfFuel.
Arguments Ok {A} a.
Arguments Raise {A} e.
Arguments OutOfFuel {A}.

Definition bindR {A B} (m : res A) (k : A -> res B) : res B :=
  match m with
  | Ok a => k a
  | Raise e => Raise e
  | OutOfFuel => OutOfFuel
  end.

(** The world a call runs in: the entropy stream read by [SystemRandom]
    (an infinite tape of raw draws and the position of the next one) and the
    lines printed so far. *)
Record World := mkWorld {
  tape : nat -> nat;
  cursor : nat;
  stdout : list string
}.

(** Stateful computations that may raise. *)
Definition M (A : Type) : Type := World -> res (A * World).

Definition ret {A} (a : A) : M A := fun w => Ok (a, w).

Definition bind {A B} (m : M A) (k : A -> M B) : M B :=
  fun w => match m w with
           | Ok (a, w') => k a w'
           | Raise e => Raise e
           | OutOfFuel => OutOfFuel
           end.

Definition lift {A} (r : res A) : M A :=
  fun w => match r with
           | Ok a => Ok (a, w)
           | Raise e => Raise e
           | OutOfFuel => OutOfFuel
           end.

(** [len(s)] of a string and of a list, as Python integers. *)
Definition len_str (s : string) : Z := Z.of_nat (String.length s).
Definition len_list {A} (l : list A) : Z := Z.of_nat (List.length l).

(** [str(n)] for an integer. *)
Definition str_int (z : Z) : string := NilZero.string_of_int (Z.to_int z).

(** Decimal digit characters. *)
Definition is_digit (c : ascii) : bool :=
  let n := nat_of_ascii c in (48 <=? n)%nat && (n <=? 57)%nat.

(** [int(c)] for a one-character string [c]: [ValueError] unless it is a
    decimal digit. *)
Definition int_of_char (c : ascii) : res Z :=
  if is_digit c then Ok (Z.of_nat (nat_of_ascii c) - 48) else Raise ValueError.

(** [s.isdigit()] *)
Definition isdigit (s : string) : bool :=
  negb (String.length s =? 0)%nat && forallb is_digit (list_ascii_of_string s).

(** [s[k]] for a string: negative indices count from the end, an index out
    of range raises [IndexError]. *)
Definition str_index (s : string) (k : Z) : res string :=
  let k' := if k <? 0 then k + len_str s else k in
  if k' <? 0 then Raise IndexError
  else match String.get (Z.to_nat k') s with
       | Some c => Ok (String c EmptyString)
       | None => Raise IndexError
       end.

(** [l[k]] for a list, likewise. *)
Definition list_index {A} (l : list A) (k : Z) : res A :=
  let k' := if k <? 0 then k + len_list l else k in
  if k' <? 0 then Raise IndexError
  else match nth_error l (Z.to_nat k') with
       | Some x => Ok x
       | None => Raise IndexError
       end.

(** [s[lo:hi]] and [s[lo:]] for non-negative literal bounds; slices clamp to
    the string and never raise. *)
Definition slice (s : string) (lo hi : nat) : string := substring lo (hi - lo) s.
Definition slice_from (s : string) (lo : nat) : string :=
  substring lo (String.length s - lo) s.

(** [a % b] on integers: the sign of the result follows the divisor, and a
    zero divisor raises. *)
Definition mod_ (a b : Z) : res Z :=
  if b =? 0 then Raise ZeroDivisionError else Ok (a mod b).

(** [zip(l, l[1:])]: the adjacent pairs of a sequence. *)
Definition adjacent {A} (l : list A) : list (A * A) := combine l (tl l).

(** [all(p(x) for x in l)]: stops at the first false element, so elements
    after it are never evaluated. *)
Fixpoint all_ {A} (p : A -> res bool) (l : list A) : res bool :=
  match l with
  | [] => Ok true
  | x :: l' => bindR (p x) (fun b => if b then all_ p l' else Ok false)
  end.

(** [random.SystemRandom().randint(a, b)]: an integer of [a..b] taken from
    the next raw draw of the entropy stream ([a + randbelow(b - a + 1)]);
    an empty range raises [ValueError]. *)
Definition randint (a b : Z) : M Z := fun w =>
  if b <? a then Raise ValueError
  else Ok (a + Z.of_nat (tape w (cursor w)) mod (b - a + 1),
           mkWorld (tape w) (S (cursor w)) (stdout w)).

(** [print(line)] *)
Definition print (line : string) : M unit := fun w =>
  Ok (tt, mkWorld (tape w) (cursor w) (stdout w ++ [line])).

End Py.
Import Py.

Notation "x <- m ;; k" := (bind m (fun x => k))
  (at level 100, m at level 99, k at level 200, right associativity).
Notation "x <~ m ;; k" := (bindR m (fun x => k))
  (at level 100, m at level 99, k at level 200, right associativity).

(** ** The program *)

(** [is_trivially_invalid(seq)] *)
Definition is_trivially_invalid (seq : string) : res bool :=
  let chars := list_ascii_of_string seq in
  if (size (list_to_set chars : gset ascii) =? 1)%nat then Ok true
  else
    inc <~ all_ (fun '(a, b) => vb <~ int_of_char b ;; va <~ int_of_char a ;;
                                Ok (vb - va =? 1)) (adjacent chars) ;;
    dec <~ all_ (fun '(a, b) => va <~ int_of_char a ;; vb <~ int_of_char b ;;
                                Ok (va - vb =? 1)) (adjacent chars) ;;
    if (6 <=? len_str seq) && (inc || dec) then Ok true else Ok false.

(** [''.join(str(sysrand.randint(0, 9)) for _ in range(n))] *)
Fixpoint join_digits (n : nat) : M string :=
  match n with
  | O => ret ""
  | S n' => d <- randint 0 9 ;; rest <- join_digits n' ;; ret (str_int d +:+ rest)
  end.

(** The [while is_trivially_invalid(seq)] loop of [gen_local_9digits]; each
    unit of fuel pays for one redraw. *)
Fixpoint redraw (fuel : nat) (seq : string) : M string :=
  t <- lift (is_trivially_invalid seq) ;;
  if t : bool then
    match fuel with
    | O => fun _ => OutOfFuel
    | S fuel' => tail <- join_digits 8 ;; redraw fuel' ("9" +:+ tail)
    end
  else ret seq.

(** [gen_local_9digits()] *)
Definition gen_local_9digits (fuel : nat) : M string :=
  tail <- join_digits 8 ;;
  redraw fuel ("9" +:+ tail).

(** A row of the batch: [(e164, nacional, ddd, numero)]. *)
Definition Row : Type := string * string * string * string.

Definition row_e164 (r : Row) : string := let '(e, _, _, _) := r in e.
Definition row_nacional (r : Row) : string := let '(_, n, _, _) := r in n.
Definition row_ddd (r : Row) : string := let '(_, _, d, _) := r in d.
Definition row_numero (r : Row) : string := let '(_, _, _, n) := r in n.

(** [f"+55{ddd}{numero}"] *)
Definition fmt_e164 (ddd numero : string) : string := "+55" +:+ ddd +:+ numero.

(** [f"({ddd}) {numero[0]} {numero[1:5]}-{numero[5:]}"] *)
Definition fmt_nacional (ddd numero : string) : res string :=
  d0 <~ str_index numero 0 ;;
  Ok ("(" +:+ ddd +:+ ") " +:+ d0 +:+ " " +:+ slice numero 1 5 +:+ "-" +:+ slice_from numero 5).

(** [gen_number_for_ddd(ddd)] *)
Definition gen_number_for_ddd (fuel : nat) (ddd : string) : M Row :=
  numero <- gen_local_9digits fuel ;;
  let e164 := fmt_e164 ddd numero in
  nacional <- lift (fmt_nacional ddd numero) ;;
  ret (e164, nacional, ddd, numero).

(** The local variables of [generate] that change in its loop. *)
Record LoopState := mkLoop {
  results : list Row;
  seen : gset string;
  i : Z;
  attempts : Z
}.

Definition loop_init : LoopState := mkLoop [] ∅ 0 0.

(** [len(results) < qtd and attempts < max_attempts] *)
Definition loop_cond (qtd max_attempts : Z) (st : LoopState) : bool :=
  (len_list (results st) <? qtd) && (attempts st <? max_attempts).

(** [ddds[i % len(ddds)]] *)
Definition pick_ddd (ddds : list string) (ix : Z) : res string :=
  k <~ mod_ ix (len_list ddds) ;; list_index ddds k.

(** One pass through the body of the [while] loop of [generate]. *)
Definition loop_body (fuel : nat) (ddds : list string) (dedup : bool)
    (st : LoopState) : M LoopState :=
  ddd <- lift (pick_ddd ddds (i st)) ;;
  row <- gen_number_for_ddd fuel ddd ;;
  let attempts' := attempts st + 1 in
  if dedup && bool_decide (row_e164 row ∈ seen st) then
    ret (mkLoop (results st) (seen st) (i st) attempts')
  else
    ret (mkLoop (results st ++ [row])
                (if dedup then seen st ∪ {[row_e164 row]} else seen st)
                (i st + 1) attempts').

(** The [while] loop of [generate]; each unit of [n] pays for one pass. *)
Fixpoint generate_loop (n fuel : nat) (ddds : list string) (qtd : Z)
    (dedup : bool) (max_attempts : Z) (st : LoopState) : M LoopState :=
  if loop_cond qtd max_attempts st then
    match n with
    | O => fun _ => OutOfFuel
    | S n' => st' <- loop_body fuel ddds dedup st ;;
              generate_loop n' fuel ddds qtd dedup max_attempts st'
    end
  else ret st.

(** The line printed on a shortfall. *)
Definition aviso (produced qtd tries : Z) : string :=
  "[AVISO] Gerei apenas " +:+ str_int produced +:+ " de " +:+ str_int qtd
  +:+ " solicitados após " +:+ str_int tries +:+ " tentativas.".

Definition max_attempts_of (qtd : Z) : Z := Z.max (qtd * 20) 200.

(** [generate(ddds, qtd, dedup)].  The same [fuel] bounds the passes of the
    outer loop and the redraws of each call of [gen_local_9digits]. *)
Definition generate (fuel : nat) (ddds : list string) (qtd : Z) (dedup : bool)
    : M (list Row) :=
  let max_attempts := max_attempts_of qtd in
  st <- generate_loop fuel fuel ddds qtd dedup max_attempts loop_init ;;
  _ <- (if len_list (results st) <? qtd
        then print (aviso (len_list (results st)) qtd (attempts st))
        else ret tt) ;;
  ret (results st).

(** The states in which the [while] test of [generate] is evaluated:
    [loop_head ... w0 k st w] says that, started in world [w0], the loop
    reaches its test for the [k+1]-th time with locals [st] in world [w]. *)
Inductive loop_head (fuel : nat) (ddds : list string) (qtd : Z) (dedup : bool)
    (w0 : World) : nat -> LoopState -> World -> Prop :=
| head_init : loop_head fuel ddds qtd dedup w0 O loop_init w0
| head_step k st w st' w' :
    loop_head fuel ddds qtd dedup w0 k st w ->
    loop_cond qtd (max_attempts_of qtd) st = true ->
    loop_body fuel ddds dedup st w = Ok (st', w') ->
    loop_head fuel ddds qtd dedup w0 (S k) st' w'.

(** Sample entropy streams and worlds. *)
Definition tape_zero : nat -> nat := fun _ => O.
Definition tape_count : nat -> nat := fun n => n.
Definition tape_nines_then_zero : nat -> nat :=
  fun n => if (n <? 8)%nat then 9%nat else 0%nat.
Definition world_of (tp : nat -> nat) : World := mkWorld tp O [].

(** Two area codes on the all-zero stream: the third attempt repeats the
    first number, so it is rejected. *)
Definition sample_rows : list Row :=
  [("+5511900000000", "(11) 9 0000-0000", "11", "900000000");
   ("+5512900000000", "(12) 9 0000-0000", "12", "900000000")].
Definition sample_state : LoopState :=
  mkLoop sample_rows (∅ ∪ {["+5511900000000"]} ∪ {["+5512900000000"]}) 2 3.
Definition sample_world : World := mkWorld tape_zero 24 [].

(** The same two area codes on a stream whose fourth number is new: the
    third attempt is rejected and the fourth is kept. *)
Definition tape_retry : nat -> nat :=
  fun n => if (n <? 24)%nat then 0%nat else 1%nat.
Definition retry_world : World := mkWorld tape_retry 24 [].
Definition retry_row : Row :=
  ("+5511911111111", "(11) 9 1111-1111", "11", "911111111").
Definition retry_state_after : LoopState :=
  mkLoop (sample_rows ++ [retry_row])
         (∅ ∪ {["+5511900000000"]} ∪ {["+5512900000000"]} ∪ {["+5511911111111"]})
         3 4.
Definition retry_world_after : World := mkWorld tape_retry 32 [].

(** One area code on the counting stream: only five distinct numbers exist,
    so a request for six ends in a shortfall. *)
Definition short_rows : list Row :=
  [("+5511901234567", "(11) 9 0123-4567", "11", "901234567");
   ("+5511989012345", "(11) 9 8901-2345", "11", "989012345");
   ("+5511967890123", "(11) 9 6789-0123", "11", "967890123");
   ("+5511945678901", "(11) 9 4567-8901", "11", "945678901");
   ("+5511923456789", "(11) 9 2345-6789", "11", "923456789")].
Definition short_state : LoopState :=
  mkLoop short_rows
         (∅ ∪ {["+5511901234567"]} ∪ {["+5511989012345"]} ∪ {["+5511967890123"]}
            ∪ {["+5511945678901"]} ∪ {["+5511923456789"]}) 5 200.

(** The digits [join_digits n] reads from position [c] of a tape. *)
Fixpoint digits_at (tp : nat -> nat) (c n : nat) : string :=
  match n with
  | O => ""
  | S n' => str_int (0 + Z.of_nat (tp c) mod (9 - 0 + 1)) +:+ digits_at tp (S c) n'
  end.

(** The candidate local number drawn from position [c]. *)
Definition candidate (tp : nat -> nat) (c : nat) : string :=
  "9" +:+ digits_at tp c 8.

(** An entropy stream is productive with bound [F] when, from any position,
    one of the next [F + 1] blocks of eight draws gives a candidate that the
    filter accepts.  A stream that is not productive for any bound (one that
    yields 9 forever) keeps [gen_local_9digits] redrawing forever. *)
Definition productive (F : nat) (tp : nat -> nat) : Prop :=
  forall c, exists k, (k <= F)%nat /\
    is_trivially_invalid (candidate tp (c + 8 * k)) = Ok false.

(** ** What the specification says, in its own words *)

(** The integer a digit character stands for. *)
Definition digit_val (c : ascii) : Z := Z.of_nat (nat_of_ascii c) - 48.

Definition digit_string (s : string) : Prop :=
  Forall (fun c => is_digit c = true) (list_ascii_of_string s).

(** Rule 1: all characters of the sequence are identical. *)
Definition all_identical (s : string) : Prop :=
  forall c d, In c (list_ascii_of_string s) -> In d (list_ascii_of_string s) -> c = d.

(** Rule 2: every adjacent pair of digits, over the entire sequence,
    increases by exactly 1. *)
Definition rising (s : string) : Prop :=
  forall k a b,
    nth_error (list_ascii_of_string s) k = Some a ->
    nth_error (list_ascii_of_string s) (S k) = Some b ->
    digit_val b - digit_val a = 1.

(** Rule 3: every adjacent pair decreases by exactly 1. *)
Definition falling (s : string) : Prop :=
  forall k a b,
    nth_error (list_ascii_of_string s) k = Some a ->
    nth_error (list_ascii_of_string s) (S k) = Some b ->
    digit_val a - digit_val b = 1.

(** The trivial-pattern rule of the specification. *)
Definition trivial_spec (s : string) : Prop :=
  all_identical s \/
  ((6 <= String.length s)%nat /\ rising s) \/
  ((6 <= String.length s)%nat /\ falling s).

(** ASCII characters and ASCII text.  Strings are held as UTF-8 bytes, so a
    character of the program's text is one character here exactly when it is
    ASCII. *)
Definition is_ascii (c : ascii) : bool := (nat_of_ascii c <? 128)%nat.

Definition ascii_string (s : string) : Prop :=
  Forall (fun c => is_ascii c = true) (list_ascii_of_string s).

(** The integer that a decimal numeral denotes, read back from its text. *)
Definition read_decimal (s : string) : option Z :=
  match NilZero.int_of_string s with
  | Some d => Some (Z.of_int d)
  | None => None
  end.

(** A shortfall warning that reports the count produced, the count
    requested and the attempts used: the three are written in the line as
    decimal numerals, at fixed places. *)
Definition shortfall_line (line : string) (produced requested tries : Z) : Prop :=
  exists p q t,
    line = "[AVISO] Gerei apenas " +:+ p +:+ " de " +:+ q
           +:+ " solicitados após " +:+ t +:+ " tentativas." /\
    read_decimal p = Some produced /\
    read_decimal q = Some requested /\
    read_decimal t = Some tries.

(** The part of an E.164 string after its leading '+'. *)
Definition after_plus (e : string) : option string :=
  match e with
  | String "+"%char rest => Some rest
  | _ => None
  end.

(** The E.164 rule of the specification, as it is worded: the concatenation
    of "+55", the area code and the local number, with exactly 14 characters
    after the '+'. *)
Definition e164_rule_as_worded (ddd numero : string) : Prop :=
  fmt_e164 ddd numero = "+55" +:+ ddd +:+ numero /\
  exists rest, after_plus (fmt_e164 ddd numero) = Some rest /\
               String.length rest = 14%nat.

(** [strip_prefix p s] removes the prefix [p] from [s], when [s] has it. *)
Fixpoint strip_prefix (p s : string) : option string :=
  match p, s with
  | EmptyString, _ => Some s
  | String c p', String d s' => if Ascii.eqb c d then strip_prefix p' s' else None
  | String _ _, EmptyString => None
  end.


(** The shape of every candidate: nine digits, the first one 9. *)
Definition well_shaped (s : string) : Prop :=
  String.length s = 9%nat /\ String.get 0 s = Some "9"%char /\ digit_string s.

(** Field consistency of a row of a batch made for the area codes [ddds]. *)
Definition row_ok (ddds : list string) (r : Row) : Prop :=
  row_e164 r = "+55" +:+ row_ddd r +:+ row_numero r /\
  row_nacional r = "(" +:+ row_ddd r +:+ ") " +:+ substring 0 1 (row_numero r)
                   +:+ " " +:+ substring 1 4 (row_numero r)
                   +:+ "-" +:+ substring 5 4 (row_numero r) /\
  In (row_ddd r) ddds.

(** The state at the [k+1]-th evaluation of the loop test, computed, when
    the loop gets that far. *)
Fixpoint head_after (fuel : nat) (ddds : list string) (qtd : Z) (dedup : bool)
    (w0 : World) (k : nat) : option (LoopState * World) :=
  match k with
  | O => Some (loop_init, w0)
  | S k' =>
      match head_after fuel ddds qtd dedup w0 k' with
      | Some (st, w) =>
          if loop_cond qtd (max_attempts_of qtd) st then
            match loop_body fuel ddds dedup st w with
            | Ok r => Some r
            | _ => None
            end
          else None
      | None => None
      end
  end.

(** The round-robin rule as the specification words it: the area code used
    on the [k]-th attempt, counting from 1, is [ddds[(k - 1) % len(ddds)]].
    The pass of the loop that starts at its [k+1]-th test is attempt number
    [k + 1]: under the rule, the tuple it generates is the one
    [gen_number_for_ddd] gives for [ddds[k % len(ddds)]], and that tuple is
    the row the pass rejects or appends. *)
Definition round_robin_per_attempt (fuel : nat) (ddds : list string) (qtd : Z)
    (w0 : World) : Prop :=
  forall k st w st' w',
    loop_head fuel ddds qtd true w0 k st w ->
    loop_cond qtd (max_attempts_of qtd) st = true ->
    loop_body fuel ddds true st w = Ok (st', w') ->
    exists row,
      gen_number_for_ddd fuel (nth (k mod length ddds)%nat ddds "") w
      = Ok (row, w') /\
      (((row_e164 row ∈ seen st) /\ results st' = results st) \/
       ((row_e164 row ∉ seen st) /\ results st' = results st ++ [row])).

(** What holds every time the loop test of [generate] is evaluated. *)
Record loop_inv (ddds : list string) (qtd : Z) (dedup : bool) (w0 : World)
    (k : nat) (st : LoopState) (w : World) : Prop := {
  inv_attempts : attempts st = Z.of_nat k;
  inv_index : i st = len_list (results st);
  inv_len : len_list (results st) <= Z.max 0 qtd;
  inv_budget : attempts st <= max_attempts_of qtd;
  inv_nodup : dedup = true -> NoDup (map row_e164 (results st));
  inv_seen : dedup = true -> forall r, In r (results st) -> row_e164 r ∈ seen st;
  inv_all : dedup = false -> len_list (results st) = attempts st;
  inv_rows : Forall (row_ok ddds) (results st);
  inv_tape : tape w = tape w0;
  inv_stdout : stdout w = stdout w0
}.

(** What every batch under construction satisfies, row by row: the
    area code of the row at position [k] cycles through [ddds], every number
    passed the filter, and the set [seen] holds only E.164 values of kept
    rows. *)
Record batch_inv (ddds : list string) (st : LoopState) : Prop := {
  binv_ddd : forall k r,
      nth_error (results st) k = Some r ->
      row_ddd r = nth (k mod length ddds)%nat ddds "";
  binv_row : forall r,
      In r (results st) ->
      well_shaped (row_numero r) /\
      is_trivially_invalid (row_numero r) = Ok false /\
      row_e164 r = fmt_e164 (row_ddd r) (row_numero r);
  binv_seen : forall e,
      e ∈ seen st -> exists r, In r (results st) /\ row_e164 r = e
}.

(** [VALID_DDDS]: the set of valid area codes. *)
Definition VALID_DDDS : gset string :=
  list_to_set
    ["11"; "12"; "13"; "14"; "15"; "16"; "17"; "18"; "19";
     "21"; "22"; "24"; "27"; "28";
     "31"; "32"; "33"; "34"; "35"; "37"; "38";
     "41"; "42"; "43"; "44"; "45"; "46"; "47"; "48"; "49";
     "51"; "53"; "54"; "55";
     "61"; "62"; "63"; "64"; "65"; "66"; "67"; "68"; "69";
     "71"; "73"; "74"; "75"; "77"; "79";
     "81"; "82"; "83"; "84"; "85"; "86"; "87"; "88"; "89";
     "91"; "92"; "93"; "94"; "95"; "96"; "97"; "98"; "99"].

(** [sorted(xs)] for strings: ascending in the order of [str], which
    compares character codes from the left.  The order is total, so the
    result does not depend on the sorting algorithm nor on the order in
    which a set is iterated. *)
Fixpoint insert_sorted (x : string) (l : list string) : list string :=
  match l with
  | [] => [x]
  | y :: l' => if String.leb x y then x :: l else y :: insert_sorted x l'
  end.

Definition sorted (xs : list string) : list string :=
  fold_right insert_sorted [] xs.

(** [sorted(VALID_DDDS)], the scope of the all-codes mode of [main]. *)
Definition all_ddds : list string := sorted (elements VALID_DDDS).

(** ** The interactive prompts *)

(** What the terminal has shown: lines written by [print] and prompts
    written by [input]. *)
Inductive shown := Line (s : string) | Prompt (s : string).

(** The terminal: the lines that will be typed, in order, and what has been
    shown so far.  Text is ASCII, and numbers stay within the digit limit of
    [int]. *)
Record Console := mkConsole {
  typed : list string;
  screen : list shown
}.

(** Outcome of a prompt loop: an answer, or the [EOFError] that [input]
    raises when no line is left. *)
Inductive asked (A : Type) : Type :=
| Answer (a : A) (c : Console)
| EOFError (c : Console).
Arguments Answer {A} a c.
Arguments EOFError {A} c.

(** The characters [str.strip()] removes. *)
Definition is_space (c : ascii) : bool :=
  let n := nat_of_ascii c in
  ((9 <=? n)%nat && (n <=? 13)%nat) || ((28 <=? n)%nat && (n <=? 32)%nat).

Fixpoint drop_spaces (l : list ascii) : list ascii :=
  match l with
  | c :: l' => if is_space c then drop_spaces l' else l
  | [] => []
  end.

(** [s.strip()] *)
Definition strip (s : string) : string :=
  string_of_list_ascii
    (rev (drop_spaces (rev (drop_spaces (list_ascii_of_string s))))).

(** [int(s)] for a string of decimal digits. *)
Definition int_of_digits (s : string) : Z :=
  fold_left (fun acc c => 10 * acc + digit_val c) (list_ascii_of_string s) 0.

(** [ask_int(prompt, min_value, max_value)]: each pass of its loop reads one
    typed line. *)
Fixpoint ask_int (prompt : string) (min_value : Z) (max_value : option Z)
    (lines : list string) (scr : list shown) : asked Z :=
  match lines with
  | [] => EOFError (mkConsole [] (scr ++ [Prompt prompt]))
  | line :: rest =>
      let scr := scr ++ [Prompt prompt] in
      let raw := strip line in
      if negb (isdigit raw) then
        ask_int prompt min_value max_value rest
          (scr ++ [Line "Por favor, digite um número inteiro válido."])
      else
        let val := int_of_digits raw in
        if val <? min_value then
          ask_int prompt min_value max_value rest
            (scr ++ [Line ("O valor mínimo é " +:+ str_int min_value +:+ ".")])
        else
          match max_value with
          | Some m =>
              if m <? val then
                ask_int prompt min_value max_value rest
                  (scr ++ [Line ("O valor máximo é " +:+ str_int m +:+ ".")])
              else Answer val (mkConsole rest scr)
          | None => Answer val (mkConsole rest scr)
          end
  end.

(** The loop of [ask_mode]. *)
Fixpoint ask_mode_loop (lines : list string) (scr : list shown) : asked string :=
  match lines with
  | [] => EOFError (mkConsole [] (scr ++ [Prompt "Opção (1/2): "]))
  | line :: rest =>
      let scr := scr ++ [Prompt "Opção (1/2): "] in
      let m := strip line in
      if bool_decide (m ∈ ({["1"]} ∪ {["2"]} : gset string)) then
        Answer m (mkConsole rest scr)
      else
        ask_mode_loop rest (scr ++ [Line "Opção inválida. Digite 1 ou 2."])
  end.

(** [ask_mode()] *)
Definition ask_mode (c : Console) : asked string :=
  ask_mode_loop (typed c)
    (screen c ++ [Line "Escolha o modo:";
                  Line "  [1] Por DDD específico";
                  Line "  [2] Aleatório em TODOS os DDDs do Brasil"]).

(** [ask_ddd()] *)
Fixpoint ask_ddd (lines : list string) (scr : list shown) : asked string :=
  match lines with
  | [] => EOFError (mkConsole [] (scr ++ [Prompt "Informe o DDD (ex: 11): "]))
  | line :: rest =>
      let scr := scr ++ [Prompt "Informe o DDD (ex: 11): "] in
      let d := strip line in
      if bool_decide (d ∈ VALID_DDDS) then Answer d (mkConsole rest scr)
      else ask_ddd rest (scr ++ [Line "DDD inválido. Tente novamente."])
  end.

(** Whether [ask_int] accepts a typed line. *)
Definition int_accepted (min_value : Z) (max_value : option Z) (line : string)
    : bool :=
  isdigit (strip line)
  && (min_value <=? int_of_digits (strip line))
  && match max_value with
     | Some m => int_of_digits (strip line) <=? m
     | None => true
     end.

(** Typed lines on which the model of [input], [strip], [isdigit] and [int]
    is that of the program: ASCII text without a line feed, and no more
    characters than [int] accepts digits. *)
Definition plain_line (l : string) : bool :=
  forallb (fun c => is_ascii c && negb (nat_of_ascii c =? 10)%nat)
          (list_ascii_of_string l)
  && (String.length l <=? 4300)%nat.

Definition plain_input (lines : list string) : Prop :=
  forallb plain_line lines = true.

Definition prompts_in (scr : list shown) : nat :=
  length (List.filter (fun e => match e with Prompt _ => true | Line _ => false end) scr).
Definition lines_in (scr : list shown) : nat :=
  length (List.filter (fun e => match e with Line _ => true | Prompt _ => false end) scr).





(** ** Evaluation samples *)

Example is_trivially_invalid_samples :
  is_trivially_invalid "999999999" = Ok true /\
  is_trivially_invalid "987654321" = Ok true /\
  is_trivially_invalid "012345" = Ok true /\
  is_trivially_invalid "01234" = Ok false /\
  is_trivially_invalid "912345678" = Ok false /\
  is_trivially_invalid "" = Ok false /\
  is_trivially_invalid "1a" = Raise ValueError /\
  is_trivially_invalid "31a" = Ok false /\
  is_trivially_invalid "21a" = Raise ValueError /\
  is_trivially_invalid "aa" = Ok true.
Proof. vm_compute. repeat split. Qed.

(** ** The trivial-pattern filter *)

Section Filter.

Lemma size_chars_one (l : list ascii) :
  l <> [] ->
  size (list_to_set l : gset ascii) = 1%nat <->
  (forall c d, In c l -> In d l -> c = d).
Proof.
  intros Hne. split.
  - intros Hs c d Hc Hd.
    apply size_1_elem_of in Hs as [x Hx].
    assert (Hin : forall y, In y l -> y = x).
    { intros y Hy. apply list_elem_of_In in Hy.
      apply (elem_of_list_to_set (C := gset ascii)) in Hy.
      rewrite Hx in Hy. now apply elem_of_singleton in Hy. }
    rewrite (Hin c Hc), (Hin d Hd). reflexivity.
  - intros Hall. destruct l as [|c l']; [done|].
    assert (Heq : (list_to_set (c :: l') : gset ascii) = {[c]}).
    { apply set_eq. intros x.
      rewrite elem_of_list_to_set, elem_of_singleton, list_elem_of_In.
      split.
      + intros Hx. apply Hall; simpl; auto.
      + intros ->. now left. }
    rewrite Heq. apply size_singleton.
Qed.

Lemma all_pointwise {A} (p : A -> res bool) (q : A -> bool) (l : list A) :
  (forall x, In x l -> p x = Ok (q x)) ->
  all_ p l = Ok (forallb q l).
Proof.
  induction l as [|x l IH]; intros Hp; simpl; [reflexivity|].
  rewrite (Hp x) by now left. simpl.
  destruct (q x); simpl; [|reflexivity].
  apply IH. intros y Hy. apply Hp. now right.
Qed.

Lemma in_adjacent {A} (l : list A) (a b : A) :
  In (a, b) (adjacent l) <->
  exists k, nth_error l k = Some a /\ nth_error l (S k) = Some b.
Proof.
  unfold adjacent. induction l as [|x l IH]; simpl.
  - split; [tauto|]. intros [k [H _]]. destruct k; discriminate.
  - destruct l as [|y l]; simpl in *.
    + split; [tauto|]. intros [k [_ H]]. destruct k; discriminate.
    + split.
      * intros [Heq | Hin].
        -- inversion Heq; subst. exists O. split; reflexivity.
        -- apply IH in Hin as [k [H1 H2]]. exists (S k). split; assumption.
      * intros [k [H1 H2]]. destruct k as [|k]; simpl in *.
        -- left. congruence.
        -- right. apply IH. exists k. split; assumption.
Qed.

Lemma int_of_digit (c : ascii) : is_digit c = true -> int_of_char c = Ok (digit_val c).
Proof. unfold int_of_char, digit_val. now intros ->. Qed.

Lemma adjacent_In {A} (l : list A) (a b : A) :
  In (a, b) (adjacent l) -> In a l /\ In b l.
Proof.
  intros H. apply in_adjacent in H as [k [H1 H2]].
  split; eapply nth_error_In; eassumption.
Qed.

(** On a digit string the filter raises nothing and computes the two
    monotonic-run tests over all adjacent pairs. *)
Lemma is_trivially_invalid_digits (s : string) :
  digit_string s ->
  is_trivially_invalid s =
  Ok ((size (list_to_set (list_ascii_of_string s) : gset ascii) =? 1)%nat
      || (6 <=? len_str s)
         && (forallb (fun '(a, b) => digit_val b - digit_val a =? 1)
                     (adjacent (list_ascii_of_string s))
             || forallb (fun '(a, b) => digit_val a - digit_val b =? 1)
                        (adjacent (list_ascii_of_string s)))).
Proof.
  intros Hd. unfold is_trivially_invalid, digit_string in *.
  rewrite Forall_forall in Hd.
  destruct (size _ =? 1)%nat; [reflexivity|]. simpl orb.
  rewrite (all_pointwise _ (fun '(a, b) => digit_val b - digit_val a =? 1)).
  2:{ intros [a b] Hin. apply adjacent_In in Hin as [Ha Hb].
      rewrite !int_of_digit by (apply Hd; apply list_elem_of_In; assumption).
      reflexivity. }
  simpl bindR.
  rewrite (all_pointwise _ (fun '(a, b) => digit_val a - digit_val b =? 1)).
  2:{ intros [a b] Hin. apply adjacent_In in Hin as [Ha Hb].
      rewrite !int_of_digit by (apply Hd; apply list_elem_of_In; assumption).
      reflexivity. }
  simpl bindR.
  destruct (_ && _); reflexivity.
Qed.

Lemma forallb_adjacent (f : ascii -> ascii -> bool) (P : ascii -> ascii -> Prop)
    (l : list ascii) :
  (forall a b, f a b = true <-> P a b) ->
  forallb (fun '(a, b) => f a b) (adjacent l) = true <->
  (forall k a b, nth_error l k = Some a -> nth_error l (S k) = Some b -> P a b).
Proof.
  intros HfP. rewrite forallb_forall. split.
  - intros H k a b H1 H2. apply HfP.
    apply (H (a, b)). apply in_adjacent. eauto.
  - intros H [a b] Hin. apply in_adjacent in Hin as [k [H1 H2]].
    apply HfP. eauto.
Qed.

End Filter.

(** C4.  On every non-empty digit string [is_trivially_invalid] returns a
    boolean (it raises nothing), and that boolean is true exactly when all
    characters are identical, or the string has at least six characters and
    every adjacent pair over the entire string increases by exactly 1, or it
    has at least six characters and every adjacent pair decreases by exactly
    1.  It is true for "999999999" and "987654321" and false for "912345678",
    whose run 1..8 is only a proper substring. *)
Theorem is_trivially_invalid_spec :
  (forall s : string,
      s <> "" -> digit_string s ->
      exists b, is_trivially_invalid s = Ok b /\ (b = true <-> trivial_spec s)) /\
  is_trivially_invalid "999999999" = Ok true /\
  is_trivially_invalid "987654321" = Ok true /\
  is_trivially_invalid "912345678" = Ok false.
Proof.
  split; [|vm_compute; repeat split].
  intros s Hne Hd. eexists. split; [apply is_trivially_invalid_digits, Hd|].
  assert (Hl : list_ascii_of_string s <> []).
  { destruct s; [congruence | discriminate]. }
  unfold trivial_spec, all_identical, rising, falling, len_str.
  rewrite orb_true_iff, andb_true_iff, orb_true_iff.
  rewrite Nat.eqb_eq, (size_chars_one _ Hl), Z.leb_le.
  rewrite (forallb_adjacent (fun a b => digit_val b - digit_val a =? 1)
             (fun a b => digit_val b - digit_val a = 1))
    by (intros; apply Z.eqb_eq).
  rewrite (forallb_adjacent (fun a b => digit_val a - digit_val b =? 1)
             (fun a b => digit_val a - digit_val b = 1))
    by (intros; apply Z.eqb_eq).
  assert (H6 : 6 <= Z.of_nat (String.length s) <-> (6 <= String.length s)%nat) by lia.
  rewrite H6. tauto.
Qed.

(** A witness: "012345" is a non-empty digit string, and is trivial. *)
Lemma is_trivially_invalid_spec_witness :
  exists b, is_trivially_invalid "012345" = Ok b /\ (b = true <-> trivial_spec "012345").
Proof.
  apply (proj1 is_trivially_invalid_spec).
  - discriminate.
  - unfold digit_string. simpl. repeat constructor.
Defined.

(** ** The local-number generator *)

Section LocalNumber.

Lemma str_int_digit (z : Z) :
  0 <= z < 10 ->
  exists c, str_int z = String c "" /\ is_digit c = true.
Proof.
  intros Hz.
  assert (H : z = 0 \/ z = 1 \/ z = 2 \/ z = 3 \/ z = 4 \/ z = 5 \/ z = 6 \/
              z = 7 \/ z = 8 \/ z = 9) by lia.
  repeat (destruct H as [-> | H]); try subst z;
    eexists; (split; [vm_compute; reflexivity | reflexivity]).
Qed.

Lemma append_char (c : ascii) (s : string) : String c "" +:+ s = String c s.
Proof. reflexivity. Qed.

Lemma draw_range (x : nat) : 0 <= 0 + Z.of_nat x mod (9 - 0 + 1) < 10.
Proof.
  change (9 - 0 + 1) with 10.
  pose proof (Z.mod_pos_bound (Z.of_nat x) 10). lia.
Qed.

Lemma digits_at_length (tp : nat -> nat) (n c : nat) :
  String.length (digits_at tp c n) = n.
Proof.
  revert c. induction n as [|n IH]; intros c; simpl; [reflexivity|].
  destruct (str_int_digit _ (draw_range (tp c))) as [d [-> _]].
  rewrite append_char. simpl. now rewrite IH.
Qed.

Lemma digits_at_digits (tp : nat -> nat) (n c : nat) :
  digit_string (digits_at tp c n).
Proof.
  unfold digit_string. revert c. induction n as [|n IH]; intros c; simpl.
  - constructor.
  - destruct (str_int_digit _ (draw_range (tp c))) as [d [-> Hd]].
    rewrite append_char. simpl. constructor; [exact Hd | apply IH].
Qed.

Lemma candidate_shape (tp : nat -> nat) (c : nat) : well_shaped (candidate tp c).
Proof.
  unfold well_shaped, candidate. rewrite append_char. repeat split.
  - cbn [String.length]. now rewrite digits_at_length.
  - unfold digit_string. cbn [list_ascii_of_string].
    constructor; [reflexivity | apply digits_at_digits].
Qed.

(** [join_digits] never fails: it reads [n] draws and leaves the rest of the
    world alone. *)
Lemma join_digits_eq (n : nat) (w : World) :
  join_digits n w =
  Ok (digits_at (tape w) (cursor w) n, mkWorld (tape w) (cursor w + n) (stdout w)).
Proof.
  revert w. induction n as [|n IH]; intros [tp c out]; simpl.
  - unfold ret. now rewrite Nat.add_0_r.
  - unfold bind, randint. simpl. rewrite IH. simpl. unfold ret.
    do 3 f_equal. lia.
Qed.

Lemma redraw_unfold (fuel : nat) (seq : string) :
  redraw fuel seq =
  (t <- lift (is_trivially_invalid seq) ;;
   if t : bool then
     match fuel with
     | O => fun _ => OutOfFuel
     | S fuel' => tail <- join_digits 8 ;; redraw fuel' ("9" +:+ tail)
     end
   else ret seq).
Proof. destruct fuel; reflexivity. Qed.

(** What the redraw loop returns when it returns. *)
Lemma redraw_post (fuel : nat) :
  forall seq w s w',
    (exists c, seq = candidate (tape w) c) ->
    redraw fuel seq w = Ok (s, w') ->
    (exists c, s = candidate (tape w) c) /\
    is_trivially_invalid s = Ok false /\
    tape w' = tape w /\ stdout w' = stdout w.
Proof.
  induction fuel as [|fuel IH]; intros seq w s w' Hc; rewrite redraw_unfold;
    unfold bind, lift; destruct (is_trivially_invalid seq) as [[|]| |] eqn:Ht;
    try discriminate.
  - unfold ret. intros [= <- <-]. auto.
  - rewrite join_digits_eq. intros Hr.
    apply IH in Hr; [exact Hr | simpl; eexists; reflexivity].
  - unfold ret. intros [= <- <-]. auto.
Qed.

Lemma gen_local_9digits_post (fuel : nat) (w : World) (s : string) (w' : World) :
  gen_local_9digits fuel w = Ok (s, w') ->
  (exists c, s = candidate (tape w) c) /\
  is_trivially_invalid s = Ok false /\
  tape w' = tape w /\ stdout w' = stdout w.
Proof.
  unfold gen_local_9digits, bind. rewrite join_digits_eq. intros Hr.
  apply redraw_post in Hr; [exact Hr | simpl; eexists; reflexivity].
Qed.

(** On a productive stream the redraw loop ends. *)
Lemma redraw_total (tp : nat -> nat) (k : nat) :
  forall fuel c out,
    (k <= fuel)%nat ->
    is_trivially_invalid (candidate tp (c + 8 * k)) = Ok false ->
    exists s c',
      redraw fuel (candidate tp c) (mkWorld tp (c + 8) out) = Ok (s, mkWorld tp c' out).
Proof.
  induction k as [|k IH]; intros fuel c out Hk Hok; rewrite redraw_unfold;
    unfold bind, lift.
  - replace (c + 8 * 0)%nat with c in Hok by lia. rewrite Hok.
    unfold ret. eauto.
  - pose proof (is_trivially_invalid_digits (candidate tp c)
                  (proj2 (proj2 (candidate_shape tp c)))) as Hd.
    destruct (is_trivially_invalid (candidate tp c)) as [[|]| |];
      try discriminate Hd; clear Hd.
    + destruct fuel as [|fuel]; [lia|].
      rewrite join_digits_eq. simpl tape. simpl cursor. simpl stdout.
      apply (IH fuel (c + 8)%nat out); [lia|].
      now replace (c + 8 + 8 * k)%nat with (c + 8 * S k)%nat by lia.
    + unfold ret. eauto.
Qed.

Lemma gen_local_9digits_total (F fuel : nat) (tp : nat -> nat) (c : nat)
    (out : list string) :
  productive F tp -> (F <= fuel)%nat ->
  exists s c', gen_local_9digits fuel (mkWorld tp c out) = Ok (s, mkWorld tp c' out).
Proof.
  intros Hp HF. destruct (Hp c) as [k [Hk Hok]].
  unfold gen_local_9digits, bind. rewrite join_digits_eq. simpl.
  apply (redraw_total tp k); [lia | exact Hok].
Qed.

End LocalNumber.

(** C5.  Every value returned by [gen_local_9digits] has length exactly 9,
    its first character is '9', all of its characters are decimal digits
    (so [isdigit] holds), and [is_trivially_invalid] classifies it as not
    trivial.  On a productive entropy stream it does return such a value. *)
Theorem gen_local_9digits_spec (fuel : nat) (w : World) :
  (forall s w',
      gen_local_9digits fuel w = Ok (s, w') ->
      String.length s = 9%nat /\
      String.get 0 s = Some "9"%char /\
      digit_string s /\ isdigit s = true /\
      is_trivially_invalid s = Ok false) /\
  (forall F,
      productive F (tape w) -> (F <= fuel)%nat ->
      exists s w', gen_local_9digits fuel w = Ok (s, w')).
Proof.
  split.
  - intros s w' Hr. apply gen_local_9digits_post in Hr as [[c ->] [Ht _]].
    destruct (candidate_shape (tape w) c) as [Hl [Hg Hd]].
    split; [exact Hl|]. split; [exact Hg|]. split; [exact Hd|].
    split; [|exact Ht].
    unfold isdigit. rewrite Hl. cbn [Nat.eqb negb andb].
    apply forallb_forall. intros x Hx.
    unfold digit_string in Hd. rewrite Forall_forall in Hd.
    apply Hd. now apply list_elem_of_In.
  - intros F Hp HF. destruct w as [tp c out].
    destruct (gen_local_9digits_total F fuel tp c out Hp HF) as [s [c' Hg]].
    eauto.
Qed.

(** A witness with one redraw: the first candidate "999999999" is rejected
    and the second, "900000000", is returned. *)
Lemma gen_local_9digits_spec_witness :
  String.length "900000000" = 9%nat /\
  String.get 0 "900000000" = Some "9"%char /\
  digit_string "900000000" /\ isdigit "900000000" = true /\
  is_trivially_invalid "900000000" = Ok false.
Proof.
  apply (proj1 (gen_local_9digits_spec 1 (world_of tape_nines_then_zero))
           "900000000" (mkWorld tape_nines_then_zero 16 [])).
  vm_compute. reflexivity.
Defined.

(** ** The formatter *)

Section Formatter.

Lemma append_cons (c : ascii) (a b : string) :
  String c a +:+ b = String c (a +:+ b).
Proof. reflexivity. Qed.

Lemma append_nil (b : string) : "" +:+ b = b.
Proof. reflexivity. Qed.

Lemma length_append (a b : string) :
  String.length (a +:+ b) = (String.length a + String.length b)%nat.
Proof.
  induction a as [|c a IH]; [reflexivity|].
  rewrite append_cons. simpl. now rewrite IH.
Qed.

Lemma append_assoc (a b c : string) : (a +:+ b) +:+ c = a +:+ b +:+ c.
Proof.
  induction a as [|x a IH]; [reflexivity|].
  rewrite !append_cons. now rewrite IH.
Qed.

Lemma strip_prefix_append (p s : string) : strip_prefix p (p +:+ s) = Some s.
Proof.
  induction p as [|c p IH]; [now destruct s|].
  rewrite append_cons. simpl. now rewrite Ascii.eqb_refl.
Qed.

Lemma fmt_e164_length (ddd numero : string) :
  String.length (fmt_e164 ddd numero)
  = (3 + String.length ddd + String.length numero)%nat.
Proof.
  unfold fmt_e164. rewrite !length_append. simpl. lia.
Qed.

Lemma str_index_0 (s : string) (c : ascii) :
  String.get 0 s = Some c -> str_index s 0 = Ok (String c "").
Proof.
  destruct s as [|d s]; simpl; [discriminate|].
  now intros [= ->].
Qed.

Lemma substring_0_1 (s : string) (c : ascii) :
  String.get 0 s = Some c -> substring 0 1 s = String c "".
Proof.
  destruct s as [|d s]; simpl; [discriminate|].
  intros [= ->]. now destruct s.
Qed.

(** The national string of a nine-character number. *)
Lemma fmt_nacional_eq (ddd numero : string) (c : ascii) :
  String.length numero = 9%nat ->
  String.get 0 numero = Some c ->
  fmt_nacional ddd numero =
  Ok ("(" +:+ ddd +:+ ") " +:+ String c "" +:+ " " +:+ substring 1 4 numero
      +:+ "-" +:+ substring 5 4 numero).
Proof.
  intros Hl Hg. unfold fmt_nacional, slice, slice_from.
  rewrite (str_index_0 _ _ Hg), Hl. reflexivity.
Qed.

End Formatter.

(** C2, as worded, fails: "+5511912345678" has 13 characters after the
    '+', not 14. *)
Lemma e164_rule_as_worded_fails :
  String.length "11" = 2%nat /\ String.length "912345678" = 9%nat /\
  ~ e164_rule_as_worded "11" "912345678".
Proof.
  split; [reflexivity|]. split; [reflexivity|].
  intros [_ [rest [Hr Hl]]]. vm_compute in Hr.
  injection Hr as <-. vm_compute in Hl. discriminate.
Qed.

(** C2, amended.  For every 2-character area code and 9-character local
    number, the E.164 string is the concatenation of "+55", the area code
    and the local number; it has exactly 14 characters in all, the '+'
    included, that is 13 characters after the '+'. *)
Theorem fmt_e164_spec (ddd numero : string) :
  String.length ddd = 2%nat ->
  String.length numero = 9%nat ->
  fmt_e164 ddd numero = "+55" +:+ ddd +:+ numero /\
  String.length (fmt_e164 ddd numero) = 14%nat /\
  exists rest, after_plus (fmt_e164 ddd numero) = Some rest /\
               String.length rest = 13%nat.
Proof.
  intros Hd Hn. split; [reflexivity|]. split.
  - rewrite fmt_e164_length, Hd, Hn. reflexivity.
  - exists ("55" +:+ ddd +:+ numero). split; [reflexivity|].
    rewrite !length_append, Hd, Hn. reflexivity.
Qed.

Lemma fmt_e164_spec_witness :
  fmt_e164 "11" "912345678" = "+55" +:+ "11" +:+ "912345678" /\
  String.length (fmt_e164 "11" "912345678") = 14%nat /\
  exists rest, after_plus (fmt_e164 "11" "912345678") = Some rest /\
               String.length rest = 13%nat.
Proof. apply (fmt_e164_spec "11" "912345678"); reflexivity. Defined.



(** ** The batch generator *)

Section Batch.

Lemma pick_ddd_nth (ddds : list string) (ix : Z) :
  ddds <> [] ->
  pick_ddd ddds ix = Ok (nth (Z.to_nat (ix mod len_list ddds)) ddds "") /\
  pick_ddd ddds ix = list_index ddds (ix mod len_list ddds).
Proof.
  intros Hne.
  assert (Hlen : 0 < len_list ddds).
  { unfold len_list. destruct ddds; [congruence | simpl; lia]. }
  assert (Heq : pick_ddd ddds ix = list_index ddds (ix mod len_list ddds)).
  { unfold pick_ddd, mod_.
    destruct (Z.eqb_spec (len_list ddds) 0) as [|_]; [lia | reflexivity]. }
  split; [|exact Heq]. rewrite Heq. unfold list_index.
  pose proof (Z.mod_pos_bound ix _ Hlen) as Hb.
  destruct (Z.ltb_spec (ix mod len_list ddds) 0) as [|_]; [lia|].
  destruct (Z.ltb_spec (ix mod len_list ddds) 0) as [|_]; [lia|].
  rewrite (nth_error_nth' ddds "") by (unfold len_list in *; lia).
  reflexivity.
Qed.

Lemma pick_ddd_In (ddds : list string) (ix : Z) (d : string) :
  pick_ddd ddds ix = Ok d -> In d ddds.
Proof.
  unfold pick_ddd, mod_, list_index.
  destruct (len_list ddds =? 0); [discriminate|]. simpl bindR.
  destruct (_ <? 0); [discriminate|].
  destruct (nth_error _ _) eqn:Hn; [|discriminate].
  intros [= <-]. eapply nth_error_In, Hn.
Qed.

(** What [gen_number_for_ddd] returns when it returns. *)
Lemma gen_number_for_ddd_post (fuel : nat) (ddd : string) (w : World)
    (row : Row) (w' : World) :
  gen_number_for_ddd fuel ddd w = Ok (row, w') ->
  exists numero,
    gen_local_9digits fuel w = Ok (numero, w') /\
    well_shaped numero /\
    row = (fmt_e164 ddd numero,
           "(" +:+ ddd +:+ ") " +:+ "9" +:+ " " +:+ substring 1 4 numero
           +:+ "-" +:+ substring 5 4 numero,
           ddd, numero).
Proof.
  unfold gen_number_for_ddd, bind.
  destruct (gen_local_9digits fuel w) as [[numero w1]| |] eqn:Hg; try discriminate.
  pose proof (gen_local_9digits_post _ _ _ _ Hg) as [[c Hc] _].
  assert (Hs : well_shaped numero) by (subst numero; apply candidate_shape).
  destruct Hs as [Hl [H9 Hd]].
  rewrite (fmt_nacional_eq ddd numero _ Hl H9). unfold lift, ret.
  intros [= <- <-]. exists numero. repeat split; assumption.
Qed.

Lemma gen_number_for_ddd_total (F fuel : nat) (tp : nat -> nat) (ddd : string)
    (c : nat) (out : list string) :
  productive F tp -> (F <= fuel)%nat ->
  exists row c',
    gen_number_for_ddd fuel ddd (mkWorld tp c out) = Ok (row, mkWorld tp c' out).
Proof.
  intros Hp HF.
  destruct (gen_local_9digits_total F fuel tp c out Hp HF) as [s [c' Hg]].
  pose proof (gen_local_9digits_post _ _ _ _ Hg) as [[c0 Hc] _].
  assert (Hs : well_shaped s) by (subst s; apply candidate_shape).
  destruct Hs as [Hl [H9 Hd]].
  unfold gen_number_for_ddd, bind. rewrite Hg.
  rewrite (fmt_nacional_eq ddd s _ Hl H9). unfold lift, ret. eauto.
Qed.

(** One pass of the loop: the attempt counter always advances; the index
    [i] and the batch advance together, and only when the row is kept. *)
Lemma loop_body_post (fuel : nat) (ddds : list string) (dedup : bool)
    (st : LoopState) (w : World) (st' : LoopState) (w' : World) :
  loop_body fuel ddds dedup st w = Ok (st', w') ->
  exists ddd row,
    pick_ddd ddds (i st) = Ok ddd /\
    gen_number_for_ddd fuel ddd w = Ok (row, w') /\
    attempts st' = attempts st + 1 /\
    ((dedup = true /\ row_e164 row ∈ seen st /\
      results st' = results st /\ seen st' = seen st /\ i st' = i st)
     \/
     ((dedup = false \/ row_e164 row ∉ seen st) /\
      results st' = results st ++ [row] /\
      seen st' = (if dedup then seen st ∪ {[row_e164 row]} else seen st) /\
      i st' = i st + 1)).
Proof.
  unfold loop_body, bind, lift.
  destruct (pick_ddd ddds (i st)) as [ddd| |] eqn:Hp; try discriminate.
  destruct (gen_number_for_ddd fuel ddd w) as [[row w1]| |] eqn:Hg;
    try discriminate.
  destruct dedup; simpl andb.
  - case_bool_decide as Hin; unfold ret; intros [= <- <-];
      exists ddd, row; simpl; intuition.
  - unfold ret; intros [= <- <-]. exists ddd, row; simpl; intuition.
Qed.

Lemma loop_body_total (F fuel : nat) (ddds : list string) (dedup : bool)
    (st : LoopState) (tp : nat -> nat) (c : nat) (out : list string) :
  ddds <> [] -> productive F tp -> (F <= fuel)%nat ->
  exists st' c', loop_body fuel ddds dedup st (mkWorld tp c out)
                 = Ok (st', mkWorld tp c' out).
Proof.
  intros Hne Hp HF. unfold loop_body, bind, lift.
  destruct (pick_ddd_nth ddds (i st) Hne) as [-> _].
  destruct (gen_number_for_ddd_total F fuel tp
              (nth (Z.to_nat (i st mod len_list ddds)) ddds "") c out Hp HF)
    as [row [c' ->]].
  destruct (dedup && _); unfold ret; eauto.
Qed.

Lemma row_ok_of_gen (fuel : nat) (ddds : list string) (ddd : string)
    (w : World) (row : Row) (w' : World) :
  In ddd ddds ->
  gen_number_for_ddd fuel ddd w = Ok (row, w') ->
  row_ok ddds row /\ tape w' = tape w /\ stdout w' = stdout w.
Proof.
  intros Hin Hg.
  apply gen_number_for_ddd_post in Hg as [numero [Hl [[Hlen [H9 Hd]] ->]]].
  apply gen_local_9digits_post in Hl as [_ [_ [Ht Ho]]].
  split; [|split; assumption].
  unfold row_ok. simpl. rewrite (substring_0_1 _ _ H9).
  split; [reflexivity|]. split; [reflexivity | exact Hin].
Qed.

Lemma len_list_app {A} (l : list A) (x : A) :
  len_list (l ++ [x]) = len_list l + 1.
Proof. unfold len_list. rewrite length_app. simpl. lia. Qed.

Lemma loop_cond_true (qtd m : Z) (st : LoopState) :
  loop_cond qtd m st = true <->
  len_list (results st) < qtd /\ attempts st < m.
Proof. unfold loop_cond. rewrite andb_true_iff, !Z.ltb_lt. reflexivity. Qed.

Lemma loop_cond_false (qtd m : Z) (st : LoopState) :
  loop_cond qtd m st = false <->
  qtd <= len_list (results st) \/ m <= attempts st.
Proof. unfold loop_cond. rewrite andb_false_iff, !Z.ltb_ge. reflexivity. Qed.

Lemma loop_inv_init (ddds : list string) (qtd : Z) (dedup : bool) (w0 : World) :
  loop_inv ddds qtd dedup w0 O loop_init w0.
Proof.
  constructor; simpl; try reflexivity.
  - unfold len_list. simpl. lia.
  - unfold max_attempts_of. lia.
  - intros _. constructor.
  - intros _ r [].
  - constructor.
Qed.

Lemma loop_inv_step (fuel : nat) (ddds : list string) (qtd : Z) (dedup : bool)
    (w0 : World) (k : nat) (st : LoopState) (w : World) (st' : LoopState)
    (w' : World) :
  loop_inv ddds qtd dedup w0 k st w ->
  loop_cond qtd (max_attempts_of qtd) st = true ->
  loop_body fuel ddds dedup st w = Ok (st', w') ->
  loop_inv ddds qtd dedup w0 (S k) st' w'.
Proof.
  intros [Ha Hi Hl Hb Hn Hs Hall Hr Ht Ho] Hc Hbody.
  apply loop_cond_true in Hc as [Hlt Hat].
  apply loop_body_post in Hbody
    as [ddd [row [Hp [Hg [Ha' [[Hd [Hin [Hres [Hseen Hi']]]]
                               | [Hacc [Hres [Hseen Hi']]]]]]]]].
  - (* the row was a duplicate *)
    apply pick_ddd_In in Hp.
    destruct (row_ok_of_gen _ _ _ _ _ _ Hp Hg) as [_ [Ht' Ho']].
    constructor; rewrite ?Hres, ?Hseen, ?Hi', ?Ha'; try assumption; try lia;
      try congruence.
  - (* the row was kept *)
    apply pick_ddd_In in Hp.
    destruct (row_ok_of_gen _ _ _ _ _ _ Hp Hg) as [Hok [Ht' Ho']].
    constructor; rewrite ?Hres, ?Hseen, ?Hi', ?Ha', ?len_list_app;
      try lia; try congruence.
    + intros Hd. rewrite map_app. simpl.
      destruct Hacc as [Hf | Hnotin]; [congruence|].
      apply NoDup_app. split; [auto|]. split; [|apply NoDup_singleton].
      intros e He Hsingle. apply list_elem_of_In in He.
      apply list_elem_of_In in Hsingle. destruct Hsingle as [<- | []].
      apply in_map_iff in He as [r [Hre Hrin]].
      apply Hnotin. rewrite <- Hre. auto.
    + intros Hd r Hrin. rewrite Hd. apply in_app_iff in Hrin as [Hrin | [<- | []]].
      * apply elem_of_union_l. auto.
      * apply elem_of_union_r. now apply elem_of_singleton.
    + intros Hd. rewrite (Hall Hd). reflexivity.
    + apply Forall_app. split; [assumption | constructor; [assumption | constructor]].
Qed.

(** The invariant holds at every evaluation of the loop test. *)
Lemma loop_head_inv (fuel : nat) (ddds : list string) (qtd : Z) (dedup : bool)
    (w0 : World) (k : nat) (st : LoopState) (w : World) :
  loop_head fuel ddds qtd dedup w0 k st w ->
  loop_inv ddds qtd dedup w0 k st w.
Proof.
  induction 1 as [|k st w st' w' _ IH Hc Hb].
  - apply loop_inv_init.
  - eapply loop_inv_step; eassumption.
Qed.

Lemma head_after_sound (fuel : nat) (ddds : list string) (qtd : Z)
    (dedup : bool) (w0 : World) (k : nat) :
  forall st w,
    head_after fuel ddds qtd dedup w0 k = Some (st, w) ->
    loop_head fuel ddds qtd dedup w0 k st w.
Proof.
  induction k as [|k IH]; simpl; intros st w.
  - intros [= <- <-]. constructor.
  - destruct (head_after fuel ddds qtd dedup w0 k) as [[st0 w1]|];
      [|discriminate].
    destruct (loop_cond qtd (max_attempts_of qtd) st0) eqn:Hc; [|discriminate].
    destruct (loop_body fuel ddds dedup st0 w1) as [[st1 w2]| |] eqn:Hb;
      try discriminate.
    intros [= <- <-]. eapply head_step; [apply IH; reflexivity | exact Hc | exact Hb].
Qed.

Lemma generate_loop_unfold (n fuel : nat) (ddds : list string) (qtd : Z)
    (dedup : bool) (m : Z) (st : LoopState) :
  generate_loop n fuel ddds qtd dedup m st =
  if loop_cond qtd m st then
    match n with
    | O => fun _ => OutOfFuel
    | S n' => st' <- loop_body fuel ddds dedup st ;;
              generate_loop n' fuel ddds qtd dedup m st'
    end
  else ret st.
Proof. destruct n; reflexivity. Qed.

(** When the loop ends, it ends at an evaluation of its test that fails. *)
Lemma generate_loop_head (fuel : nat) (ddds : list string) (qtd : Z)
    (dedup : bool) (w0 : World) (n : nat) :
  forall k st w st' w',
    loop_head fuel ddds qtd dedup w0 k st w ->
    generate_loop n fuel ddds qtd dedup (max_attempts_of qtd) st w = Ok (st', w') ->
    exists k', loop_head fuel ddds qtd dedup w0 k' st' w' /\
               loop_cond qtd (max_attempts_of qtd) st' = false.
Proof.
  induction n as [|n IH]; intros k st w st' w' Hh; rewrite generate_loop_unfold;
    destruct (loop_cond qtd (max_attempts_of qtd) st) eqn:Hc;
    try discriminate; try (unfold ret; intros [= <- <-]; eauto).
  unfold bind.
  destruct (loop_body fuel ddds dedup st w) as [[st1 w1]| |] eqn:Hb;
    try discriminate.
  apply (IH (S k)). eapply head_step; eassumption.
Qed.

(** On a productive stream the loop ends within its attempt budget. *)
Lemma generate_loop_total (F fuel : nat) (ddds : list string) (qtd : Z)
    (dedup : bool) (m : Z) (tp : nat -> nat) (out : list string) (n : nat) :
  ddds <> [] -> productive F tp -> (F <= fuel)%nat ->
  forall st c,
    (Z.to_nat (m - attempts st) <= n)%nat ->
    exists st' c',
      generate_loop n fuel ddds qtd dedup m st (mkWorld tp c out)
      = Ok (st', mkWorld tp c' out).
Proof.
  intros Hne Hp HF. induction n as [|n IH]; intros st c Hn;
    rewrite generate_loop_unfold;
    destruct (loop_cond qtd m st) eqn:Hc; try (unfold ret; eauto; fail);
    apply loop_cond_true in Hc as [_ Hat]; [lia|].
  destruct (loop_body_total F fuel ddds dedup st tp c out Hne Hp HF)
    as [st1 [c1 Hb]].
  unfold bind. rewrite Hb.
  apply loop_body_post in Hb as [_ [_ [_ [_ [Ha _]]]]].
  apply IH. rewrite Ha. lia.
Qed.

(** [generate] is its loop followed by the shortfall report. *)
Lemma generate_post (fuel : nat) (ddds : list string) (qtd : Z) (dedup : bool)
    (w0 : World) (rows : list Row) (w' : World) :
  generate fuel ddds qtd dedup w0 = Ok (rows, w') ->
  exists k st w,
    generate_loop fuel fuel ddds qtd dedup (max_attempts_of qtd) loop_init w0
    = Ok (st, w) /\
    loop_head fuel ddds qtd dedup w0 k st w /\
    loop_cond qtd (max_attempts_of qtd) st = false /\
    rows = results st /\
    w' = (if len_list (results st) <? qtd
          then mkWorld (tape w) (cursor w)
                       (stdout w ++ [aviso (len_list (results st)) qtd (attempts st)])
          else w).
Proof.
  unfold generate, bind.
  destruct (generate_loop fuel fuel ddds qtd dedup (max_attempts_of qtd)
              loop_init w0) as [[st w]| |] eqn:Hl; try discriminate.
  destruct (generate_loop_head _ _ _ _ _ _ _ _ _ _ _ (head_init _ _ _ _ _) Hl)
    as [k [Hh Hc]].
  intros Hr. exists k, st, w.
  destruct (len_list (results st) <? qtd); unfold print, ret in Hr;
    injection Hr as <- <-; repeat split; assumption || reflexivity.
Qed.

(** On a productive stream, with a non-empty list of area codes,
    [generate] returns. *)
Lemma generate_total (F fuel : nat) (ddds : list string) (qtd : Z)
    (dedup : bool) (w0 : World) :
  ddds <> [] -> productive F (tape w0) -> (F <= fuel)%nat ->
  (Z.to_nat (max_attempts_of qtd) <= fuel)%nat ->
  exists rows w', generate fuel ddds qtd dedup w0 = Ok (rows, w').
Proof.
  destruct w0 as [tp c out]. simpl. intros Hne Hp HF Hfuel.
  destruct (generate_loop_total F fuel ddds qtd dedup (max_attempts_of qtd)
              tp out fuel Hne Hp HF loop_init c) as [st [c' Hl]].
  { simpl. lia. }
  unfold generate, bind. rewrite Hl.
  destruct (len_list (results st) <? qtd); unfold print, ret; eauto.
Qed.

Lemma tape_zero_productive : productive 0 tape_zero.
Proof.
  intros c. exists O. split; [lia|]. vm_compute. reflexivity.
Qed.

Lemma sample_head :
  loop_head 0 ["11"; "12"] 3 true (world_of tape_zero) 3 sample_state sample_world.
Proof. apply head_after_sound. vm_compute. reflexivity. Qed.

Lemma retry_head :
  loop_head 0 ["11"; "12"] 3 true (world_of tape_retry) 3 sample_state retry_world.
Proof. apply head_after_sound. vm_compute. reflexivity. Qed.

Lemma retry_pass :
  loop_body 0 ["11"; "12"] true sample_state retry_world
  = Ok (retry_state_after, retry_world_after).
Proof. vm_compute. reflexivity. Qed.

(** The tuple a pass generates carries the area code it was generated for. *)
Lemma gen_number_for_ddd_ddd (fuel : nat) (ddd : string) (w : World) (row : Row)
    (w' : World) :
  gen_number_for_ddd fuel ddd w = Ok (row, w') -> row_ddd row = ddd.
Proof.
  intros Hg. apply gen_number_for_ddd_post in Hg as [numero [_ [_ ->]]].
  reflexivity.
Qed.

Lemma read_decimal_str_int (z : Z) : read_decimal (str_int z) = Some z.
Proof.
  unfold read_decimal, str_int. rewrite NilZero.isi.
  - now rewrite DecimalZ.of_to.
  - destruct z; simpl; try discriminate.
    intros [= H]. now apply Unsigned.to_uint_nonnil in H.
  - destruct z; simpl; try discriminate.
    intros [= H]. now apply Unsigned.to_uint_nonnil in H.
Qed.

Lemma short_run :
  generate_loop 200 200 ["11"] 6 true (max_attempts_of 6) loop_init
                (world_of tape_count)
  = Ok (short_state, mkWorld tape_count 1600 []).
Proof. vm_compute. reflexivity. Qed.

End Batch.

(** C1, as worded, fails: with area codes "11" and "12", the third attempt
    (area code "11") repeats the first number and is rejected as a
    duplicate; the fourth attempt then draws a new number and appends it
    with area code "11" again, where the rule as worded wants "12". *)
Lemma round_robin_per_attempt_fails :
  ["11"; "12"] <> [] /\
  ~ round_robin_per_attempt 0 ["11"; "12"] 3 (world_of tape_retry).
Proof.
  split; [discriminate|]. intros H.
  destruct (H 3%nat sample_state retry_world retry_state_after retry_world_after
              retry_head eq_refl retry_pass) as [row [Hg Hcase]].
  vm_compute in Hg. injection Hg as Hrow. subst row.
  destruct Hcase as [[_ Hres] | [_ Hres]]; vm_compute in Hres; discriminate Hres.
Qed.

(** C1, amended.  In [generate] with deduplication, the area-code index
    advances by one on every accepted attempt and is left unchanged by an
    attempt rejected as a duplicate, while the attempt counter advances on
    every attempt.  So, for a non-empty list of area codes, at every
    evaluation of the loop test the index equals the number of rows kept so
    far, and the pass made from there generates its tuple for the area code
    [ddds[len(results) % len(ddds)]]: that tuple carries this area code, and
    it is the row the pass rejects (its E.164 value was seen) or appends. *)
Theorem area_code_follows_kept_rows (fuel : nat) (ddds : list string) (qtd : Z)
    (w0 : World) (k : nat) (st : LoopState) (w : World) :
  ddds <> [] ->
  loop_head fuel ddds qtd true w0 k st w ->
  attempts st = Z.of_nat k /\
  i st = len_list (results st) /\
  pick_ddd ddds (i st)
  = Ok (nth (Z.to_nat (len_list (results st) mod len_list ddds)) ddds "") /\
  (forall st' w',
      loop_body fuel ddds true st w = Ok (st', w') ->
      attempts st' = attempts st + 1 /\
      exists row,
        gen_number_for_ddd fuel
          (nth (length (results st) mod length ddds)%nat ddds "") w
        = Ok (row, w') /\
        row_ddd row = nth (length (results st) mod length ddds)%nat ddds "" /\
        (((row_e164 row ∈ seen st) /\ results st' = results st /\ i st' = i st)
         \/
         ((row_e164 row ∉ seen st) /\ results st' = results st ++ [row] /\
          i st' = i st + 1))).
Proof.
  intros Hne Hh. pose proof (loop_head_inv _ _ _ _ _ _ _ _ Hh) as Hinv.
  pose proof (inv_index _ _ _ _ _ _ _ Hinv) as Hidx.
  split; [apply Hinv|]. split; [exact Hidx|]. split.
  - rewrite <- Hidx. now apply pick_ddd_nth.
  - intros st' w' Hb.
    apply loop_body_post in Hb
      as [ddd [row [Hp [Hg [Ha [[_ [Hin [Hres [_ Hi]]]] | [Hacc [Hres [_ Hi]]]]]]]]];
      (split; [exact Ha|]); exists row;
      destruct (pick_ddd_nth ddds (i st) Hne) as [Hpick _];
      rewrite Hpick, Hidx in Hp; injection Hp as Hddd;
      unfold len_list in Hddd; rewrite <- Nat2Z.inj_mod, Nat2Z.id in Hddd;
      rewrite Hddd;
      (split; [exact Hg|]);
      (split; [exact (gen_number_for_ddd_ddd _ _ _ _ _ Hg)|]).
    + left. auto.
    + right. destruct Hacc as [Hf | Hnotin]; [discriminate | auto].
Qed.

(** A witness at the pass that follows a rejection: two rows kept, three
    attempts made, and the fourth attempt appends a row for "11". *)
Lemma area_code_follows_kept_rows_witness :
  attempts sample_state = Z.of_nat 3 /\
  i sample_state = len_list (results sample_state) /\
  pick_ddd ["11"; "12"] (i sample_state)
  = Ok (nth (Z.to_nat (len_list (results sample_state) mod len_list ["11"; "12"]))
            ["11"; "12"] "") /\
  (forall st' w',
      loop_body 0 ["11"; "12"] true sample_state retry_world = Ok (st', w') ->
      attempts st' = attempts sample_state + 1 /\
      exists row,
        gen_number_for_ddd 0
          (nth (length (results sample_state) mod length ["11"; "12"])%nat
               ["11"; "12"] "") retry_world
        = Ok (row, w') /\
        row_ddd row
        = nth (length (results sample_state) mod length ["11"; "12"])%nat
              ["11"; "12"] "" /\
        (((row_e164 row ∈ seen sample_state) /\ results st' = results sample_state /\
          i st' = i sample_state)
         \/
         ((row_e164 row ∉ seen sample_state) /\
          results st' = results sample_state ++ [row] /\
          i st' = i sample_state + 1))).
Proof.
  apply (area_code_follows_kept_rows 0 ["11"; "12"] 3 (world_of tape_retry) 3
           sample_state retry_world).
  - discriminate.
  - apply retry_head.
Defined.

(** C3.  For every non-empty list of area codes and every positive
    quantity, all E.164 values of a batch that [generate] returns under
    deduplication are pairwise distinct; on a productive entropy stream it
    does return such a batch. *)
Theorem generate_dedup_distinct (fuel : nat) (ddds : list string) (qtd : Z)
    (w0 : World) :
  ddds <> [] -> 0 < qtd ->
  (forall rows w',
      generate fuel ddds qtd true w0 = Ok (rows, w') ->
      NoDup (map row_e164 rows)) /\
  (forall F,
      productive F (tape w0) -> (F <= fuel)%nat ->
      (Z.to_nat (max_attempts_of qtd) <= fuel)%nat ->
      exists rows w',
        generate fuel ddds qtd true w0 = Ok (rows, w') /\
        NoDup (map row_e164 rows)).
Proof.
  intros Hne _.
  assert (Hpart : forall rows w',
             generate fuel ddds qtd true w0 = Ok (rows, w') ->
             NoDup (map row_e164 rows)).
  { intros rows w' Hg.
    apply generate_post in Hg as [k [st [w [_ [Hh [_ [-> _]]]]]]].
    apply loop_head_inv in Hh. now apply (inv_nodup _ _ _ _ _ _ _ Hh). }
  split; [exact Hpart|].
  intros F Hp HF Hfuel.
  destruct (generate_total F fuel ddds qtd true w0 Hne Hp HF Hfuel)
    as [rows [w' Hg]].
  exists rows, w'. split; [exact Hg | exact (Hpart _ _ Hg)].
Qed.

Lemma generate_dedup_distinct_witness : NoDup (map row_e164 short_rows).
Proof.
  apply (proj1 (generate_dedup_distinct 200 ["11"] 6 (world_of tape_count)
                  ltac:(discriminate) ltac:(lia))
           short_rows (mkWorld tape_count 1600 [aviso 5 6 200])).
  vm_compute. reflexivity.
Defined.

(** C10.  Every row of a batch returned by [generate] is consistent: its
    E.164 field is "+55", its area code and its number; its national field
    is "(" area code ") " digit 0 " " digits 1-4 "-" digits 5-8 of its
    number; and its area code is one of the codes given to [generate].  On a
    productive entropy stream, with a non-empty list of area codes,
    [generate] does return such a batch. *)
Theorem generate_rows_consistent (fuel : nat) (ddds : list string) (qtd : Z)
    (dedup : bool) (w0 : World) :
  (forall rows w',
      generate fuel ddds qtd dedup w0 = Ok (rows, w') ->
      forall r, In r rows -> row_ok ddds r) /\
  (forall F,
      ddds <> [] -> productive F (tape w0) -> (F <= fuel)%nat ->
      (Z.to_nat (max_attempts_of qtd) <= fuel)%nat ->
      exists rows w', generate fuel ddds qtd dedup w0 = Ok (rows, w')).
Proof.
  split.
  - intros rows w' Hg.
    apply generate_post in Hg as [k [st [w [_ [Hh [_ [-> _]]]]]]].
    apply loop_head_inv in Hh.
    pose proof (inv_rows _ _ _ _ _ _ _ Hh) as Hr.
    rewrite Forall_forall in Hr. intros r Hin. apply Hr.
    now apply list_elem_of_In.
  - intros F Hne Hp HF Hfuel. now apply (generate_total F).
Qed.

Lemma generate_rows_consistent_witness :
  row_ok ["11"; "12"] ("+5512900000000", "(12) 9 0000-0000", "12", "900000000").
Proof.
  apply (proj1 (generate_rows_consistent 200 ["11"; "12"] 3 true
                  (world_of tape_zero))
           sample_rows (mkWorld tape_zero 1600 [aviso 2 3 200])).
  - vm_compute. reflexivity.
  - simpl. right. left. reflexivity.
Defined.

(** C6.  For every non-empty list of area codes and every positive
    quantity, on a productive entropy stream [generate] returns, after a
    number of attempts that is at most [max(qtd * 20, 200)]: every pass of
    its loop was entered with fewer than [qtd] rows and fewer attempts than
    the budget, and it stops at the first test where the batch has [qtd]
    rows or the attempts have reached the budget.  The batch never has more
    than [qtd] rows. *)
Theorem generate_within_budget (F fuel : nat) (ddds : list string) (qtd : Z)
    (dedup : bool) (tp : nat -> nat) (c : nat) (out : list string) :
  ddds <> [] -> 0 < qtd ->
  productive F tp -> (F <= fuel)%nat ->
  (Z.to_nat (max_attempts_of qtd) <= fuel)%nat ->
  exists k st c' w',
    generate fuel ddds qtd dedup (mkWorld tp c out) = Ok (results st, w') /\
    loop_head fuel ddds qtd dedup (mkWorld tp c out) k st (mkWorld tp c' out) /\
    loop_cond qtd (Z.max (qtd * 20) 200) st = false /\
    attempts st = Z.of_nat k /\
    attempts st <= Z.max (qtd * 20) 200 /\
    len_list (results st) <= qtd /\
    (len_list (results st) = qtd \/ attempts st = Z.max (qtd * 20) 200).
Proof.
  intros Hne Hq Hp HF Hfuel.
  destruct (generate_loop_total F fuel ddds qtd dedup (max_attempts_of qtd)
              tp out fuel Hne Hp HF loop_init c) as [st [c' Hl]].
  { simpl. lia. }
  destruct (generate_loop_head _ _ _ _ _ _ _ _ _ _ _ (head_init _ _ _ _ _) Hl)
    as [k [Hh Hc]].
  pose proof (loop_head_inv _ _ _ _ _ _ _ _ Hh) as Hinv.
  pose proof (inv_len _ _ _ _ _ _ _ Hinv) as Hlen.
  pose proof (inv_budget _ _ _ _ _ _ _ Hinv) as Hbud.
  exists k, st, c'.
  exists (if len_list (results st) <? qtd
          then mkWorld tp c' (out ++ [aviso (len_list (results st)) qtd (attempts st)])
          else mkWorld tp c' out).
  split.
  { unfold generate, bind. rewrite Hl.
    destruct (len_list (results st) <? qtd); unfold print, ret; reflexivity. }
  split; [exact Hh|]. split; [exact Hc|]. split; [apply Hinv|].
  apply loop_cond_false in Hc. unfold max_attempts_of in *. lia.
Qed.

Lemma generate_within_budget_witness :
  exists k st c' w',
    generate 200 ["11"; "12"] 3 true (mkWorld tape_zero 0 []) = Ok (results st, w') /\
    loop_head 200 ["11"; "12"] 3 true (mkWorld tape_zero 0 []) k st
              (mkWorld tape_zero c' []) /\
    loop_cond 3 (Z.max (3 * 20) 200) st = false /\
    attempts st = Z.of_nat k /\
    attempts st <= Z.max (3 * 20) 200 /\
    len_list (results st) <= 3 /\
    (len_list (results st) = 3 \/ attempts st = Z.max (3 * 20) 200).
Proof.
  apply (generate_within_budget 0 200 ["11"; "12"] 3 true tape_zero 0 []).
  - discriminate.
  - lia.
  - apply tape_zero_productive.
  - lia.
  - vm_compute. lia.
Defined.

(** C7.  When the loop of [generate] stops with fewer rows than requested,
    [generate] prints one warning line and nothing else, and returns the
    partial batch normally: no exception is raised.  The line reads
    "[AVISO] Gerei apenas P de Q solicitados após T tentativas.", where P, Q
    and T are the decimal numerals of the number of rows produced, of the
    number requested and of the number of attempts used, which is the number
    of passes the loop made. *)
Theorem shortfall_is_a_warning (fuel : nat) (ddds : list string) (qtd : Z)
    (dedup : bool) (w0 : World) (st : LoopState) (w : World) :
  generate_loop fuel fuel ddds qtd dedup (max_attempts_of qtd) loop_init w0
  = Ok (st, w) ->
  len_list (results st) < qtd ->
  exists line,
    generate fuel ddds qtd dedup w0
    = Ok (results st, mkWorld (tape w) (cursor w) (stdout w0 ++ [line])) /\
    line = "[AVISO] Gerei apenas " +:+ str_int (len_list (results st))
           +:+ " de " +:+ str_int qtd
           +:+ " solicitados após " +:+ str_int (attempts st)
           +:+ " tentativas." /\
    shortfall_line line (len_list (results st)) qtd (attempts st) /\
    exists k, loop_head fuel ddds qtd dedup w0 k st w /\ attempts st = Z.of_nat k.
Proof.
  intros Hl Hshort.
  destruct (generate_loop_head _ _ _ _ _ _ _ _ _ _ _ (head_init _ _ _ _ _) Hl)
    as [k [Hh _]].
  pose proof (loop_head_inv _ _ _ _ _ _ _ _ Hh) as Hinv.
  eexists. split; [|split; [reflexivity|split]].
  - unfold generate, bind. rewrite Hl.
    apply Z.ltb_lt in Hshort. rewrite Hshort. unfold print, ret.
    rewrite (inv_stdout _ _ _ _ _ _ _ Hinv). reflexivity.
  - exists (str_int (len_list (results st))), (str_int qtd),
      (str_int (attempts st)).
    split; [reflexivity|]. rewrite !read_decimal_str_int. auto.
  - exists k. split; [exact Hh | apply Hinv].
Qed.

(** A witness: one area code on the counting stream, six numbers requested,
    five produced after 200 attempts. *)
Lemma shortfall_is_a_warning_witness :
  exists line,
    generate 200 ["11"] 6 true (world_of tape_count)
    = Ok (results short_state,
          mkWorld (tape (mkWorld tape_count 1600 []))
                  (cursor (mkWorld tape_count 1600 []))
                  (stdout (world_of tape_count) ++ [line])) /\
    line = "[AVISO] Gerei apenas " +:+ str_int (len_list (results short_state))
           +:+ " de " +:+ str_int 6
           +:+ " solicitados após " +:+ str_int (attempts short_state)
           +:+ " tentativas." /\
    shortfall_line line (len_list (results short_state)) 6 (attempts short_state) /\
    exists k, loop_head 200 ["11"] 6 true (world_of tape_count) k short_state
                        (mkWorld tape_count 1600 []) /\
              attempts short_state = Z.of_nat k.
Proof.
  apply (shortfall_is_a_warning 200 ["11"] 6 true (world_of tape_count)
           short_state (mkWorld tape_count 1600 [])).
  - vm_compute. reflexivity.
  - vm_compute. reflexivity.
Defined.

(** The text of that warning. *)
Example shortfall_text :
  generate 200 ["11"] 6 true (world_of tape_count)
  = Ok (short_rows,
        mkWorld tape_count 1600
          ["[AVISO] Gerei apenas 5 de 6 solicitados após 200 tentativas."]).
Proof. vm_compute. reflexivity. Qed.

(** C9.  For every non-empty list of area codes and every quantity
    [qtd >= 0], on a productive entropy stream [generate] without
    deduplication returns exactly [qtd] rows and prints no warning: a
    shortfall is impossible, because every attempt is kept and the budget
    [max(qtd * 20, 200)] is at least [qtd]. *)
Theorem generate_without_dedup_exact (F fuel : nat) (ddds : list string)
    (qtd : Z) (tp : nat -> nat) (c : nat) (out : list string) :
  ddds <> [] -> 0 <= qtd ->
  productive F tp -> (F <= fuel)%nat ->
  (Z.to_nat (max_attempts_of qtd) <= fuel)%nat ->
  exists rows c',
    generate fuel ddds qtd false (mkWorld tp c out) = Ok (rows, mkWorld tp c' out) /\
    len_list rows = qtd /\
    qtd <= max_attempts_of qtd.
Proof.
  intros Hne Hq Hp HF Hfuel.
  destruct (generate_loop_total F fuel ddds qtd false (max_attempts_of qtd)
              tp out fuel Hne Hp HF loop_init c) as [st [c' Hl]].
  { simpl. lia. }
  destruct (generate_loop_head _ _ _ _ _ _ _ _ _ _ _ (head_init _ _ _ _ _) Hl)
    as [k [Hh Hc]].
  pose proof (loop_head_inv _ _ _ _ _ _ _ _ Hh) as Hinv.
  pose proof (inv_len _ _ _ _ _ _ _ Hinv) as Hlen.
  pose proof (inv_all _ _ _ _ _ _ _ Hinv eq_refl) as Hall.
  apply loop_cond_false in Hc.
  assert (Hexact : len_list (results st) = qtd).
  { unfold max_attempts_of in *. lia. }
  exists (results st), c'. split; [|split; [exact Hexact|]].
  - unfold generate, bind. rewrite Hl, Hexact, Z.ltb_irrefl. reflexivity.
  - unfold max_attempts_of. lia.
Qed.

Lemma generate_without_dedup_exact_witness :
  exists rows c',
    generate 200 ["11"] 4 false (mkWorld tape_zero 0 [])
    = Ok (rows, mkWorld tape_zero c' []) /\
    len_list rows = 4 /\
    4 <= max_attempts_of 4.
Proof.
  apply (generate_without_dedup_exact 0 200 ["11"] 4 tape_zero 0 []).
  - discriminate.
  - lia.
  - apply tape_zero_productive.
  - lia.
  - vm_compute. lia.
Defined.

(** ** Further properties of the filter *)

Section FilterEdges.




End FilterEdges.



(** X2.  A non-empty ASCII string whose characters are all the same is
    classified as trivial whether the character is a digit or not: the
    digits are never read, so nothing is raised even for letters. *)
Theorem is_trivially_invalid_identical (s : string) :
  s <> "" -> ascii_string s -> all_identical s ->
  is_trivially_invalid s = Ok true.
Proof.
  intros Hne _ Hall. unfold is_trivially_invalid.
  assert (Hl : list_ascii_of_string s <> []).
  { destruct s; [congruence | discriminate]. }
  apply (size_chars_one _ Hl) in Hall. now rewrite Hall.
Qed.

Lemma is_trivially_invalid_identical_witness :
  is_trivially_invalid "aaa" = Ok true.
Proof.
  apply (is_trivially_invalid_identical "aaa").
  - discriminate.
  - unfold ascii_string. simpl. repeat constructor.
  - intros c d Hc Hd. simpl in Hc, Hd.
    destruct Hc as [<- | [<- | [<- | []]]];
      destruct Hd as [<- | [<- | [<- | []]]]; reflexivity.
Defined.

(** X3.  A string whose first two characters are ASCII and differ, one of
    them not being a decimal digit, makes [is_trivially_invalid] raise
    [ValueError]: the rising-run scan converts the first adjacent pair
    before any length test. *)
Theorem is_trivially_invalid_value_error (a b : ascii) (rest : string) :
  is_ascii a = true -> is_ascii b = true ->
  a <> b ->
  is_digit a = false \/ is_digit b = false ->
  is_trivially_invalid (String a (String b rest)) = Raise ValueError.
Proof.
  intros _ _ Hab Hnd. unfold is_trivially_invalid.
  cbn [list_ascii_of_string].
  destruct (Nat.eqb_spec
              (size (list_to_set (a :: b :: list_ascii_of_string rest) : gset ascii))
              1) as [Hsz | _].
  - exfalso. apply Hab.
    assert (Hl : a :: b :: list_ascii_of_string rest <> []) by discriminate.
    apply (proj1 (size_chars_one _ Hl) Hsz); simpl; auto.
  - unfold adjacent. cbn [tl combine all_ bindR]. unfold int_of_char.
    destruct (is_digit a), (is_digit b); try reflexivity.
    destruct Hnd; discriminate.
Qed.

Lemma is_trivially_invalid_value_error_witness :
  is_trivially_invalid "9x2345678" = Raise ValueError.
Proof.
  apply (is_trivially_invalid_value_error "9" "x" "2345678").
  - reflexivity.
  - reflexivity.
  - discriminate.
  - right. reflexivity.
Defined.

(** ** Edge cases of the batch generator *)

(** X4.  With an empty list of area codes and a quantity of at least 1,
    [generate] raises [ZeroDivisionError] on its first pass, at
    [i % len(ddds)], before any number is drawn. *)
Theorem generate_no_area_codes (fuel : nat) (qtd : Z) (dedup : bool) (w : World) :
  0 < qtd ->
  generate (S fuel) [] qtd dedup w = Raise ZeroDivisionError.
Proof.
  intros Hq. unfold generate, bind. rewrite generate_loop_unfold.
  assert (Hc : loop_cond qtd (max_attempts_of qtd) loop_init = true).
  { apply loop_cond_true. unfold max_attempts_of, len_list. simpl. lia. }
  rewrite Hc. reflexivity.
Qed.

Lemma generate_no_area_codes_witness :
  generate 1 [] 5 true (world_of tape_count) = Raise ZeroDivisionError.
Proof. apply (generate_no_area_codes 0 5 true (world_of tape_count)). lia. Defined.

(** X5.  For a quantity of zero or less [generate] returns the empty batch
    at once, whatever the list of area codes (even an empty one): it draws
    nothing and prints nothing. *)
Theorem generate_nothing_requested (fuel : nat) (ddds : list string) (qtd : Z)
    (dedup : bool) (w : World) :
  qtd <= 0 ->
  generate fuel ddds qtd dedup w = Ok ([], w).
Proof.
  intros Hq. unfold generate, bind. rewrite generate_loop_unfold.
  assert (Hc : loop_cond qtd (max_attempts_of qtd) loop_init = false).
  { apply loop_cond_false. left. unfold len_list. simpl. lia. }
  rewrite Hc. unfold ret.
  assert (Hlt : (len_list (results loop_init) <? qtd) = false).
  { apply Z.ltb_ge. unfold len_list. simpl. lia. }
  rewrite Hlt. reflexivity.
Qed.

Lemma generate_nothing_requested_witness :
  generate 0 [] 0 true (world_of tape_count) = Ok ([], world_of tape_count).
Proof. apply (generate_nothing_requested 0 [] 0 true (world_of tape_count)). lia. Defined.

(** ** The rows of a batch *)

Section Rows.

Lemma pick_ddd_Ok (ddds : list string) (ix : Z) (d : string) :
  pick_ddd ddds ix = Ok d ->
  ddds <> [] /\ d = nth (Z.to_nat (ix mod len_list ddds)) ddds "".
Proof.
  intros Hp.
  assert (Hne : ddds <> []).
  { intros ->. unfold pick_ddd, mod_, len_list in Hp. simpl in Hp. discriminate. }
  split; [exact Hne|].
  destruct (pick_ddd_nth ddds ix Hne) as [Heq _]. congruence.
Qed.

Lemma batch_inv_init (ddds : list string) : batch_inv ddds loop_init.
Proof.
  constructor; simpl.
  - intros k r H. destruct k; discriminate.
  - intros r [].
  - intros e He. exfalso. revert He. apply not_elem_of_empty.
Qed.

Lemma batch_inv_step (fuel : nat) (ddds : list string) (dedup : bool)
    (st : LoopState) (w : World) (st' : LoopState) (w' : World) :
  i st = len_list (results st) ->
  batch_inv ddds st ->
  loop_body fuel ddds dedup st w = Ok (st', w') ->
  batch_inv ddds st'.
Proof.
  intros Hi [Hd Hr Hs] Hbody.
  apply loop_body_post in Hbody
    as [ddd [row [Hp [Hg [_ [[_ [_ [Hres [Hseen _]]]]
                             | [_ [Hres [Hseen _]]]]]]]]].
  - constructor; rewrite ?Hres, ?Hseen; assumption.
  - apply pick_ddd_Ok in Hp as [Hne Hddd].
    apply gen_number_for_ddd_post in Hg as [numero [Hl [Hshape Hrow]]].
    apply gen_local_9digits_post in Hl as [_ [Htriv _]].
    constructor; rewrite ?Hres, ?Hseen.
    + intros k r Hk.
      destruct (Nat.lt_ge_cases k (length (results st))) as [Hlt | Hge].
      * rewrite nth_error_app1 in Hk by exact Hlt. now apply Hd.
      * rewrite nth_error_app2 in Hk by exact Hge.
        destruct (k - length (results st))%nat as [|n] eqn:Hk0; simpl in Hk;
          [|destruct n; discriminate].
        injection Hk as <-. subst row. simpl.
        assert (k = length (results st)) as -> by lia.
        rewrite Hddd, Hi. unfold len_list.
        now rewrite <- Nat2Z.inj_mod, Nat2Z.id.
    + intros r Hin. apply in_app_iff in Hin as [Hin | [<- | []]].
      * now apply Hr.
      * subst row. simpl. auto.
    + intros e He. destruct dedup.
      * apply elem_of_union in He as [He | He].
        -- destruct (Hs e He) as [r [Hin Hre]]. exists r. split; [|exact Hre].
           apply in_app_iff. now left.
        -- apply elem_of_singleton in He. exists row. split; [|now symmetry].
           apply in_app_iff. right. now left.
      * destruct (Hs e He) as [r [Hin Hre]]. exists r. split; [|exact Hre].
        apply in_app_iff. now left.
Qed.

Lemma loop_head_batch_inv (fuel : nat) (ddds : list string) (qtd : Z)
    (dedup : bool) (w0 : World) (k : nat) (st : LoopState) (w : World) :
  loop_head fuel ddds qtd dedup w0 k st w -> batch_inv ddds st.
Proof.
  induction 1 as [|k st w st' w' Hh IH Hc Hb].
  - apply batch_inv_init.
  - eapply batch_inv_step; [|exact IH | exact Hb].
    apply (inv_index _ _ _ _ _ _ _ (loop_head_inv _ _ _ _ _ _ _ _ Hh)).
Qed.

End Rows.

Section RowFacts.

Lemma digit_string_append (a b : string) :
  digit_string a -> digit_string b -> digit_string (a +:+ b).
Proof.
  unfold digit_string. induction a as [|c a IH]; intros Ha Hb; [exact Hb|].
  rewrite append_cons. simpl in *. inversion Ha; subst.
  constructor; [assumption | now apply IH].
Qed.

Lemma prefix_append (p s : string) : String.prefix p (p +:+ s) = true.
Proof.
  induction p as [|c p IH]; [now destruct s|].
  rewrite append_cons. simpl.
  destruct (ascii_dec c c); [exact IH | congruence].
Qed.

Lemma append_inj_length (a b x y : string) :
  a +:+ x = b +:+ y -> String.length x = String.length y -> a = b /\ x = y.
Proof.
  revert b. induction a as [|c a IH]; intros [|d b] Heq Hlen.
  - auto.
  - rewrite append_nil, append_cons in Heq. subst x.
    simpl in Hlen. rewrite length_append in Hlen. lia.
  - rewrite append_nil, append_cons in Heq. subst y.
    simpl in Hlen. rewrite length_append in Hlen. lia.
  - rewrite !append_cons in Heq. injection Heq as -> Heq.
    destruct (IH b Heq Hlen) as [-> ->]. auto.
Qed.

Lemma fmt_e164_inj (a b x y : string) :
  fmt_e164 a x = fmt_e164 b y -> String.length x = String.length y ->
  a = b /\ x = y.
Proof.
  unfold fmt_e164. intros Heq Hlen.
  assert (Hs : Some (a +:+ x) = Some (b +:+ y)).
  { rewrite <- (strip_prefix_append "+55" (a +:+ x)),
      <- (strip_prefix_append "+55" (b +:+ y)).
    f_equal. exact Heq. }
  injection Hs as Hs. now apply append_inj_length.
Qed.

End RowFacts.

(** X6.  The rows of a batch cycle through the area codes in order: the row
    at position [k] (from 0) carries [ddds[k % len(ddds)]], with or without
    deduplication, whatever attempts were rejected in between. *)
Theorem generate_rows_round_robin (fuel : nat) (ddds : list string) (qtd : Z)
    (dedup : bool) (w0 : World) (rows : list Row) (w' : World) :
  generate fuel ddds qtd dedup w0 = Ok (rows, w') ->
  forall k r,
    nth_error rows k = Some r ->
    row_ddd r = nth (k mod length ddds)%nat ddds "".
Proof.
  intros Hg. apply generate_post in Hg as [k0 [st [w [_ [Hh [_ [-> _]]]]]]].
  apply loop_head_batch_inv in Hh. apply Hh.
Qed.

Lemma generate_rows_round_robin_witness :
  row_ddd ("+5512900000000", "(12) 9 0000-0000", "12", "900000000")
  = nth (1 mod length ["11"; "12"])%nat ["11"; "12"] "".
Proof.
  apply (generate_rows_round_robin 200 ["11"; "12"] 3 true (world_of tape_zero)
           sample_rows (mkWorld tape_zero 1600 [aviso 2 3 200])).
  - vm_compute. reflexivity.
  - reflexivity.
Defined.

(** X7.  When every area code given to [generate] is two decimal digits,
    every row of the batch holds a local number of nine digits that begins
    with 9 and is not trivial, and an E.164 string of exactly 14 characters:
    a '+' followed by 13 decimal digits. *)
Theorem generate_rows_well_formed (fuel : nat) (ddds : list string) (qtd : Z)
    (dedup : bool) (w0 : World) (rows : list Row) (w' : World) :
  (forall d, In d ddds -> String.length d = 2%nat /\ digit_string d) ->
  generate fuel ddds qtd dedup w0 = Ok (rows, w') ->
  forall r,
    In r rows ->
    well_shaped (row_numero r) /\
    is_trivially_invalid (row_numero r) = Ok false /\
    String.length (row_e164 r) = 14%nat /\
    exists rest, row_e164 r = String "+" rest /\ digit_string rest.
Proof.
  intros Hd Hg r Hin.
  apply generate_post in Hg as [k0 [st [w [_ [Hh [_ [-> _]]]]]]].
  pose proof (loop_head_batch_inv _ _ _ _ _ _ _ _ Hh) as Hb.
  pose proof (inv_rows _ _ _ _ _ _ _ (loop_head_inv _ _ _ _ _ _ _ _ Hh)) as Hrows.
  rewrite Forall_forall in Hrows.
  destruct (Hrows r (proj2 (list_elem_of_In _ _) Hin)) as [_ [_ Hmem]].
  destruct (Hd _ Hmem) as [Hlen Hdig].
  destruct (binv_row _ _ Hb r Hin) as [Hshape [Htriv He]].
  destruct Hshape as [Hl9 [H9 Hnd]].
  split; [repeat split; assumption|]. split; [exact Htriv|].
  rewrite He. split.
  - rewrite fmt_e164_length, Hlen, Hl9. reflexivity.
  - exists ("55" +:+ row_ddd r +:+ row_numero r). split; [reflexivity|].
    apply (digit_string_append "55"); [unfold digit_string; simpl; repeat constructor|].
    now apply digit_string_append.
Qed.

Lemma generate_rows_well_formed_witness :
  well_shaped "923456789" /\
  is_trivially_invalid "923456789" = Ok false /\
  String.length "+5511923456789" = 14%nat /\
  exists rest, "+5511923456789" = String "+" rest /\ digit_string rest.
Proof.
  apply (generate_rows_well_formed 200 ["11"] 6 true (world_of tape_count)
           short_rows (mkWorld tape_count 1600 [aviso 5 6 200])
           ltac:(intros d [<- | []]; split;
                 [reflexivity | unfold digit_string; simpl; repeat constructor])
           ltac:(vm_compute; reflexivity)
           ("+5511923456789", "(11) 9 2345-6789", "11", "923456789")).
  simpl. tauto.
Defined.

(** X8.  A batch made for a single area code [d] carries [d] in every row,
    and every E.164 string of it starts with "+55" followed by [d]. *)
Theorem generate_single_area_code (fuel : nat) (d : string) (qtd : Z)
    (dedup : bool) (w0 : World) (rows : list Row) (w' : World) :
  generate fuel [d] qtd dedup w0 = Ok (rows, w') ->
  forall r,
    In r rows ->
    row_ddd r = d /\ String.prefix ("+55" +:+ d) (row_e164 r) = true.
Proof.
  intros Hg r Hin.
  apply generate_post in Hg as [k0 [st [w [_ [Hh [_ [-> _]]]]]]].
  pose proof (loop_head_batch_inv _ _ _ _ _ _ _ _ Hh) as Hb.
  destruct (In_nth_error _ _ Hin) as [k Hk].
  pose proof (binv_ddd _ _ Hb k r Hk) as Hd. simpl in Hd.
  destruct (binv_row _ _ Hb r Hin) as [_ [_ He]].
  split; [exact Hd|]. rewrite He, Hd. unfold fmt_e164.
  rewrite <- append_assoc. apply prefix_append.
Qed.

Lemma generate_single_area_code_witness :
  row_ddd ("+5511989012345", "(11) 9 8901-2345", "11", "989012345") = "11" /\
  String.prefix ("+55" +:+ "11")
    (row_e164 ("+5511989012345", "(11) 9 8901-2345", "11", "989012345")) = true.
Proof.
  apply (generate_single_area_code 200 "11" 6 true (world_of tape_count)
           short_rows (mkWorld tape_count 1600 [aviso 5 6 200])).
  - vm_compute. reflexivity.
  - simpl. tauto.
Defined.

(** ** Area codes that are all different *)

Section DistinctCodes.

Lemma fresh_row (ddds : list string) (st : LoopState) (ddd numero : string) :
  NoDup ddds ->
  batch_inv ddds st ->
  (length (results st) < length ddds)%nat ->
  ddd = nth (length (results st)) ddds "" ->
  String.length numero = 9%nat ->
  fmt_e164 ddd numero ∉ seen st.
Proof.
  intros Hnd Hb Hlt Hddd Hlen Hin.
  destruct (binv_seen _ _ Hb _ Hin) as [r [Hr He]].
  destruct (In_nth_error _ _ Hr) as [k Hk].
  assert (Hkl : (k < length (results st))%nat).
  { apply nth_error_Some. congruence. }
  pose proof (binv_ddd _ _ Hb k r Hk) as Hd.
  rewrite Nat.mod_small in Hd by lia.
  destruct (binv_row _ _ Hb r Hr) as [[Hl9 _] [_ Her]].
  rewrite Her in He.
  apply fmt_e164_inj in He as [Hsame _]; [|congruence].
  rewrite Hd, Hddd in Hsame.
  apply NoDup_ListNoDup in Hnd.
  apply (proj1 (NoDup_nth ddds "") Hnd) in Hsame; lia.
Qed.

(** With distinct area codes and no more rows requested than there are
    codes, no attempt is ever rejected. *)
Lemma loop_head_all_kept (fuel : nat) (ddds : list string) (qtd : Z)
    (w0 : World) (k : nat) (st : LoopState) (w : World) :
  NoDup ddds -> qtd <= len_list ddds ->
  loop_head fuel ddds qtd true w0 k st w ->
  len_list (results st) = attempts st.
Proof.
  intros Hnd Hq. induction 1 as [|k st w st' w' Hh IH Hc Hb].
  - reflexivity.
  - pose proof (loop_head_inv _ _ _ _ _ _ _ _ Hh) as Hinv.
    pose proof (loop_head_batch_inv _ _ _ _ _ _ _ _ Hh) as Hbi.
    apply loop_cond_true in Hc as [Hlt _].
    apply loop_body_post in Hb
      as [ddd [row [Hp [Hg [Ha [[_ [Hin [_ [_ _]]]] | [_ [Hres [_ _]]]]]]]]].
    + exfalso.
      apply pick_ddd_Ok in Hp as [_ Hddd].
      apply gen_number_for_ddd_post in Hg as [numero [_ [[Hl9 _] ->]]].
      simpl in Hin. revert Hin.
      apply (fresh_row ddds st ddd numero Hnd Hbi); unfold len_list in *;
        [lia | | exact Hl9].
      rewrite Hddd, (inv_index _ _ _ _ _ _ _ Hinv). unfold len_list.
      rewrite <- Nat2Z.inj_mod, Nat2Z.id, Nat.mod_small by lia. reflexivity.
    + rewrite Hres, Ha, len_list_app, IH. reflexivity.
Qed.

Lemma app_one_neq {A} (l : list A) (x : A) : l ++ [x] <> l.
Proof.
  intros H. apply (f_equal (@length A)) in H.
  rewrite length_app in H. simpl in H. lia.
Qed.

Lemma insert_sorted_perm (x : string) (l : list string) :
  Permutation (insert_sorted x l) (x :: l).
Proof.
  induction l as [|y l IH]; simpl; [reflexivity|].
  destruct (String.leb x y); [reflexivity|].
  rewrite IH. apply perm_swap.
Qed.

(** [sorted] keeps the elements and puts them in ascending order. *)
Lemma sorted_perm (xs : list string) : Permutation (sorted xs) xs.
Proof.
  induction xs as [|x xs IH]; simpl; [reflexivity|].
  rewrite insert_sorted_perm. now rewrite IH.
Qed.

Lemma leb_flip (x y : string) : String.leb x y = false -> String.leb y x = true.
Proof. intros H. destruct (String.leb_total x y); congruence. Qed.

Lemma insert_sorted_sorted (x : string) (l : list string) :
  Sorted (fun a b => String.leb a b = true) l ->
  Sorted (fun a b => String.leb a b = true) (insert_sorted x l).
Proof.
  induction l as [|y l IH]; intros Hs; simpl.
  - repeat constructor.
  - destruct (String.leb x y) eqn:Hxy.
    + constructor; [exact Hs | constructor; exact Hxy].
    + inversion Hs as [|? ? Hs' Hhd]; subst.
      constructor; [now apply IH|].
      destruct l as [|z l]; simpl.
      * constructor. now apply leb_flip.
      * destruct (String.leb x z); constructor.
        -- now apply leb_flip.
        -- now inversion Hhd.
Qed.

Lemma sorted_sorted (xs : list string) :
  Sorted (fun a b => String.leb a b = true) (sorted xs).
Proof.
  induction xs as [|x xs IH]; simpl; [constructor|].
  now apply insert_sorted_sorted.
Qed.

(** The scope of the all-codes mode: 67 different codes of two digits. *)
Lemma all_ddds_facts :
  length all_ddds = 67%nat /\ NoDup all_ddds /\
  (forall d, In d all_ddds -> String.length d = 2%nat /\ digit_string d) /\
  (forall d, In d all_ddds <-> d ∈ VALID_DDDS).
Proof.
  split; [vm_compute; reflexivity|]. split.
  - unfold all_ddds. rewrite sorted_perm. apply NoDup_elements.
  - split.
    + assert (H : forallb (fun d => (String.length d =? 2)%nat
                                    && forallb is_digit (list_ascii_of_string d))
                          all_ddds = true) by (vm_compute; reflexivity).
      rewrite forallb_forall in H. intros d Hd.
      apply H in Hd. apply andb_true_iff in Hd as [H1 H2].
      split; [now apply Nat.eqb_eq|].
      unfold digit_string. apply Forall_forall. intros c Hc.
      rewrite forallb_forall in H2. apply H2. now apply list_elem_of_In.
    + intros d. unfold all_ddds.
      rewrite <- elem_of_elements, <- !list_elem_of_In.
      split; intros H.
      * now rewrite <- (sorted_perm (elements VALID_DDDS)).
      * now rewrite (sorted_perm (elements VALID_DDDS)).
Qed.

End DistinctCodes.

(** X9.  When the area codes are pairwise different and no more rows are
    requested than there are codes, deduplication never rejects anything:
    each row has its own area code, so its E.164 string is new whatever
    number was drawn.  [generate] then returns exactly [qtd] rows, having
    made exactly [qtd] attempts, and prints no warning; on a productive
    entropy stream it does return. *)
Theorem generate_distinct_codes_exact (fuel : nat) (ddds : list string)
    (qtd : Z) (w0 : World) :
  NoDup ddds -> 0 < qtd <= len_list ddds ->
  (forall rows w',
      generate fuel ddds qtd true w0 = Ok (rows, w') ->
      len_list rows = qtd /\ stdout w' = stdout w0 /\
      exists st w,
        loop_head fuel ddds qtd true w0 (Z.to_nat qtd) st w /\
        rows = results st /\ attempts st = qtd) /\
  (forall F,
      productive F (tape w0) -> (F <= fuel)%nat ->
      (Z.to_nat (max_attempts_of qtd) <= fuel)%nat ->
      exists rows w', generate fuel ddds qtd true w0 = Ok (rows, w')).
Proof.
  intros Hnd [Hq0 Hq]. split.
  - intros rows w' Hg.
    apply generate_post in Hg as [k [st [w [_ [Hh [Hc [-> Hw]]]]]]].
    pose proof (loop_head_inv _ _ _ _ _ _ _ _ Hh) as Hinv.
    pose proof (loop_head_all_kept _ _ _ _ _ _ _ Hnd Hq Hh) as Hall.
    pose proof (inv_len _ _ _ _ _ _ _ Hinv) as Hlen.
    pose proof (inv_attempts _ _ _ _ _ _ _ Hinv) as Hatt.
    apply loop_cond_false in Hc.
    assert (Hexact : len_list (results st) = qtd).
    { unfold max_attempts_of in *. lia. }
    split; [exact Hexact|]. split.
    + rewrite Hw, Hexact, Z.ltb_irrefl. apply Hinv.
    + exists st, w. split; [|split; [reflexivity | lia]].
      replace (Z.to_nat qtd) with k by lia. exact Hh.
  - intros F Hp HF Hfuel. apply (generate_total F); try assumption.
    intros ->. unfold len_list in Hq. simpl in Hq. lia.
Qed.

Lemma all_ddds_length : length all_ddds = 67%nat.
Proof. exact (proj1 all_ddds_facts). Qed.

Lemma all_ddds_nodup : NoDup all_ddds.
Proof. exact (proj1 (proj2 all_ddds_facts)). Qed.

(** The self-test scenario: 50 numbers over all 67 area codes, here on a
    stream that draws the same number every time. *)
Lemma generate_distinct_codes_exact_witness :
  (forall rows w',
      generate 1000 all_ddds 50 true (world_of tape_zero) = Ok (rows, w') ->
      len_list rows = 50 /\ stdout w' = stdout (world_of tape_zero) /\
      exists st w,
        loop_head 1000 all_ddds 50 true (world_of tape_zero) (Z.to_nat 50) st w /\
        rows = results st /\ attempts st = 50) /\
  (forall F,
      productive F (tape (world_of tape_zero)) -> (F <= 1000)%nat ->
      (Z.to_nat (max_attempts_of 50) <= 1000)%nat ->
      exists rows w',
        generate 1000 all_ddds 50 true (world_of tape_zero) = Ok (rows, w')).
Proof.
  apply (generate_distinct_codes_exact 1000 all_ddds 50 (world_of tape_zero)).
  - exact all_ddds_nodup.
  - unfold len_list. rewrite all_ddds_length. lia.
Defined.

(** X10.  [generate] prints if and only if the batch is short: its output
    is left as it was exactly when the batch has at least [qtd] rows, and
    otherwise gains exactly one line.  The entropy stream is only read. *)
Theorem generate_prints_iff_short (fuel : nat) (ddds : list string) (qtd : Z)
    (dedup : bool) (w0 : World) (rows : list Row) (w' : World) :
  generate fuel ddds qtd dedup w0 = Ok (rows, w') ->
  (stdout w' = stdout w0 <-> qtd <= len_list rows) /\
  (len_list rows < qtd -> exists line, stdout w' = stdout w0 ++ [line]) /\
  tape w' = tape w0.
Proof.
  intros Hg. apply generate_post in Hg as [k [st [w [_ [Hh [_ [-> Hw]]]]]]].
  pose proof (loop_head_inv _ _ _ _ _ _ _ _ Hh) as Hinv.
  pose proof (inv_stdout _ _ _ _ _ _ _ Hinv) as Ho.
  pose proof (inv_tape _ _ _ _ _ _ _ Hinv) as Ht.
  destruct (Z.ltb_spec (len_list (results st)) qtd) as [Hlt | Hge]; subst w';
    simpl.
  - rewrite Ho. split; [|split; [eauto | exact Ht]].
    split; [intros H; exfalso; exact (app_one_neq _ _ H) | lia].
  - split; [|split; [lia | exact Ht]]. tauto.
Qed.

Lemma generate_prints_iff_short_witness :
  (stdout (mkWorld tape_count 1600 [aviso 5 6 200]) = stdout (world_of tape_count)
   <-> 6 <= len_list short_rows) /\
  (len_list short_rows < 6 ->
   exists line, stdout (mkWorld tape_count 1600 [aviso 5 6 200])
                = stdout (world_of tape_count) ++ [line]) /\
  tape (mkWorld tape_count 1600 [aviso 5 6 200]) = tape (world_of tape_count).
Proof.
  apply (generate_prints_iff_short 200 ["11"] 6 true (world_of tape_count)
           short_rows (mkWorld tape_count 1600 [aviso 5 6 200])).
  vm_compute. reflexivity.
Defined.

(** ** The interactive prompts *)

Section Prompts.

Lemma prompts_in_app (a b : list shown) :
  prompts_in (a ++ b) = (prompts_in a + prompts_in b)%nat.
Proof. unfold prompts_in. now rewrite List.filter_app, length_app. Qed.

Lemma lines_in_app (a b : list shown) :
  lines_in (a ++ b) = (lines_in a + lines_in b)%nat.
Proof. unfold lines_in. now rewrite List.filter_app, length_app. Qed.

(** One pass of the loop of [ask_int]. *)
Lemma ask_int_cons (prompt : string) (min_value : Z) (max_value : option Z)
    (line : string) (rest : list string) (scr : list shown) :
  (int_accepted min_value max_value line = true /\
   ask_int prompt min_value max_value (line :: rest) scr
   = Answer (int_of_digits (strip line)) (mkConsole rest (scr ++ [Prompt prompt])))
  \/
  (int_accepted min_value max_value line = false /\
   exists msg,
     ask_int prompt min_value max_value (line :: rest) scr
     = ask_int prompt min_value max_value rest
         ((scr ++ [Prompt prompt]) ++ [Line msg])).
Proof.
  unfold int_accepted. simpl.
  destruct (isdigit (strip line)); simpl; [|right; eauto].
  destruct (Z.ltb_spec (int_of_digits (strip line)) min_value) as [Hlt | Hge].
  - right. split; [|eauto].
    destruct (Z.leb_spec min_value (int_of_digits (strip line))); [lia | reflexivity].
  - destruct (Z.leb_spec min_value (int_of_digits (strip line))) as [_ | ?]; [|lia].
    simpl. destruct max_value as [m|]; [|left; auto].
    destruct (Z.ltb_spec m (int_of_digits (strip line))) as [Hm | Hm].
    + right. split; [|eauto].
      destruct (Z.leb_spec (int_of_digits (strip line)) m); [lia | reflexivity].
    + left. split; [|reflexivity].
      destruct (Z.leb_spec (int_of_digits (strip line)) m); [reflexivity | lia].
Qed.

Lemma int_accepted_bounds (min_value : Z) (max_value : option Z) (line : string) :
  int_accepted min_value max_value line = true ->
  min_value <= int_of_digits (strip line) /\
  (forall m, max_value = Some m -> int_of_digits (strip line) <= m).
Proof.
  unfold int_accepted. rewrite !andb_true_iff, Z.leb_le.
  intros [[_ Hmin] Hmax]. split; [exact Hmin|].
  intros m ->. now apply Z.leb_le.
Qed.

End Prompts.

(** X11.  On plain typed lines, when [ask_int] returns, the value it returns
    is the number on the first typed line that is acceptable (digits only once stripped, not
    below [min_value], not above [max_value] when one is given); that value
    is within the bounds; every line before it was rejected with exactly one
    message; one prompt was shown per line read; and the lines after the
    accepted one are left unread. *)
Theorem ask_int_answer (prompt : string) (min_value : Z) (max_value : option Z)
    (lines : list string) (scr : list shown) (v : Z) (c : Console) :
  plain_input lines ->
  ask_int prompt min_value max_value lines scr = Answer v c ->
  exists rejected line,
    lines = rejected ++ line :: typed c /\
    Forall (fun l => int_accepted min_value max_value l = false) rejected /\
    int_accepted min_value max_value line = true /\
    v = int_of_digits (strip line) /\
    min_value <= v /\ (forall m, max_value = Some m -> v <= m) /\
    prompts_in (screen c) = (prompts_in scr + length rejected + 1)%nat /\
    lines_in (screen c) = (lines_in scr + length rejected)%nat.
Proof.
  intros _.
  revert scr. induction lines as [|line rest IH]; intros scr; [discriminate|].
  destruct (ask_int_cons prompt min_value max_value line rest scr)
    as [[Hacc ->] | [Hrej [msg ->]]].
  - intros [= <- <-]. exists [], line. simpl.
    destruct (int_accepted_bounds _ _ _ Hacc) as [Hmin Hmax].
    repeat split; auto.
    + rewrite prompts_in_app. change (prompts_in [Prompt prompt]) with 1%nat. lia.
    + rewrite lines_in_app. change (lines_in [Prompt prompt]) with 0%nat. lia.
  - intros Hrest. apply IH in Hrest
      as (rejected & l & Hl & Hall & Hacc & Hv & Hmin & Hmax & Hp & Hn).
    exists (line :: rejected), l. simpl.
    repeat split; auto.
    + now rewrite Hl at 1.
    + rewrite Hp, !prompts_in_app.
      change (prompts_in [Prompt prompt]) with 1%nat.
      change (prompts_in [Line msg]) with 0%nat. lia.
    + rewrite Hn, !lines_in_app.
      change (lines_in [Prompt prompt]) with 0%nat.
      change (lines_in [Line msg]) with 1%nat. lia.
Qed.

Lemma ask_int_answer_witness :
  exists rejected line,
    ["abc"; " 0"; "  15 "; "9"] = rejected ++ line :: typed (mkConsole ["9"]
      [Prompt "Q? "; Line "Por favor, digite um número inteiro válido.";
       Prompt "Q? "; Line "O valor mínimo é 1."; Prompt "Q? "]) /\
    Forall (fun l => int_accepted 1 None l = false) rejected /\
    int_accepted 1 None line = true /\
    15 = int_of_digits (strip line) /\
    1 <= 15 /\ (forall m, None = Some m -> 15 <= m) /\
    prompts_in (screen (mkConsole ["9"]
      [Prompt "Q? "; Line "Por favor, digite um número inteiro válido.";
       Prompt "Q? "; Line "O valor mínimo é 1."; Prompt "Q? "]))
    = (prompts_in [] + length rejected + 1)%nat /\
    lines_in (screen (mkConsole ["9"]
      [Prompt "Q? "; Line "Por favor, digite um número inteiro válido.";
       Prompt "Q? "; Line "O valor mínimo é 1."; Prompt "Q? "]))
    = (lines_in [] + length rejected)%nat.
Proof.
  apply (ask_int_answer "Q? " 1 None ["abc"; " 0"; "  15 "; "9"] [] 15).
  - reflexivity.
  - vm_compute. reflexivity.
Defined.



(** X13.  On plain typed lines, when [ask_mode] returns, its answer is "1" or "2": it is the
    stripped text of the first typed line that reads "1" or "2", and the
    lines after it are left unread. *)
Theorem ask_mode_answer (c : Console) (m : string) (c' : Console) :
  plain_input (typed c) ->
  ask_mode c = Answer m c' ->
  (m = "1" \/ m = "2") /\
  exists rejected line,
    typed c = rejected ++ line :: typed c' /\
    m = strip line /\
    Forall (fun l => strip l <> "1" /\ strip l <> "2") rejected.
Proof.
  intros _. unfold ask_mode. generalize (screen c ++
    [Line "Escolha o modo:"; Line "  [1] Por DDD específico";
     Line "  [2] Aleatório em TODOS os DDDs do Brasil"]).
  induction (typed c) as [|line rest IH]; intros scr; [discriminate|].
  simpl. case_bool_decide as Hm.
  - intros [= <- <-]. split.
    + apply elem_of_union in Hm as [Hm | Hm]; apply elem_of_singleton in Hm; auto.
    + exists [], line. simpl. auto.
  - intros Hrest. apply IH in Hrest as [Hone (rejected & l & Hl & Hs & Hall)].
    split; [exact Hone|]. exists (line :: rejected), l. simpl.
    split; [now rewrite Hl|]. split; [exact Hs|].
    constructor; [|exact Hall].
    split; intros Heq; apply Hm; rewrite Heq.
    + apply elem_of_union_l. now apply elem_of_singleton.
    + apply elem_of_union_r. now apply elem_of_singleton.
Qed.

Lemma ask_mode_answer_witness :
  ("2" = "1" \/ "2" = "2") /\
  exists rejected line,
    typed (mkConsole ["3"; " 2 "; "1"] [])
    = rejected ++ line :: typed (mkConsole ["1"]
        [Line "Escolha o modo:"; Line "  [1] Por DDD específico";
         Line "  [2] Aleatório em TODOS os DDDs do Brasil";
         Prompt "Opção (1/2): "; Line "Opção inválida. Digite 1 ou 2.";
         Prompt "Opção (1/2): "]) /\
    "2" = strip line /\
    Forall (fun l => strip l <> "1" /\ strip l <> "2") rejected.
Proof.
  apply (ask_mode_answer (mkConsole ["3"; " 2 "; "1"] []) "2").
  - reflexivity.
  - vm_compute. reflexivity.
Defined.

(** X14.  On plain typed lines, when [ask_ddd] returns, its answer is a member of [VALID_DDDS],
    hence two decimal digits: it is the stripped text of the first typed
    line that is a valid area code. *)
Theorem ask_ddd_answer (lines : list string) (scr : list shown) (d : string)
    (c : Console) :
  plain_input lines ->
  ask_ddd lines scr = Answer d c ->
  d ∈ VALID_DDDS /\ String.length d = 2%nat /\ digit_string d /\
  exists rejected line,
    lines = rejected ++ line :: typed c /\
    d = strip line /\
    Forall (fun l => strip l ∉ VALID_DDDS) rejected.
Proof.
  intros _.
  revert scr. induction lines as [|line rest IH]; intros scr; [discriminate|].
  simpl. case_bool_decide as Hd.
  - intros [= <- <-].
    destruct all_ddds_facts as [_ [_ [Hshape Hmem]]].
    destruct (Hshape _ (proj2 (Hmem _) Hd)) as [Hlen Hdig].
    split; [exact Hd|]. split; [exact Hlen|]. split; [exact Hdig|].
    exists [], line. simpl. auto.
  - intros Hrest.
    apply IH in Hrest as (Hv & Hlen & Hdig & rejected & l & Hl & Hs & Hall).
    split; [exact Hv|]. split; [exact Hlen|]. split; [exact Hdig|].
    exists (line :: rejected), l. simpl.
    split; [now rewrite Hl|]. split; [exact Hs|]. now constructor.
Qed.

Lemma ask_ddd_answer_witness :
  "11" ∈ VALID_DDDS /\ String.length "11" = 2%nat /\ digit_string "11" /\
  exists rejected line,
    ["10"; "11 "; "12"] = rejected ++ line :: typed (mkConsole ["12"]
        [Prompt "Informe o DDD (ex: 11): "; Line "DDD inválido. Tente novamente.";
         Prompt "Informe o DDD (ex: 11): "]) /\
    "11" = strip line /\
    Forall (fun l => strip l ∉ VALID_DDDS) rejected.
Proof.
  apply (ask_ddd_answer ["10"; "11 "; "12"] [] "11").
  - reflexivity.
  - vm_compute. reflexivity.
Defined.

(** ** What [main] asks [generate] for *)

Section MainRequest.








End MainRequest.



(** ** No exception leaves the generator *)

Section NoRaise.

Lemma candidate_filter_ok (tp : nat -> nat) (c : nat) :
  exists b, is_trivially_invalid (candidate tp c) = Ok b.
Proof.
  rewrite (is_trivially_invalid_digits (candidate tp c)
             (proj2 (proj2 (candidate_shape tp c)))).
  eauto.
Qed.

Lemma redraw_no_raise (fuel : nat) :
  forall tp c c' out e,
    redraw fuel (candidate tp c) (mkWorld tp c' out) <> Raise e.
Proof.
  induction fuel as [|fuel IH]; intros tp c c' out e; rewrite redraw_unfold;
    unfold bind, lift;
    destruct (candidate_filter_ok tp c) as [[|] ->]; try discriminate.
  rewrite join_digits_eq. cbn [tape cursor stdout]. apply IH.
Qed.

Lemma gen_local_9digits_no_raise (fuel : nat) (w : World) (e : exn) :
  gen_local_9digits fuel w <> Raise e.
Proof.
  destruct w as [tp c out]. unfold gen_local_9digits, bind.
  rewrite join_digits_eq. cbn [tape cursor stdout]. apply redraw_no_raise.
Qed.

Lemma gen_number_for_ddd_no_raise (fuel : nat) (ddd : string) (w : World)
    (e : exn) :
  gen_number_for_ddd fuel ddd w <> Raise e.
Proof.
  unfold gen_number_for_ddd, bind.
  destruct (gen_local_9digits fuel w) as [[numero w1]| |] eqn:Hg.
  - pose proof (gen_local_9digits_post _ _ _ _ Hg) as [[c Hc] _].
    destruct (candidate_shape (tape w) c) as [Hl [H9 _]]. rewrite <- Hc in *.
    rewrite (fmt_nacional_eq ddd numero _ Hl H9). discriminate.
  - exfalso. exact (gen_local_9digits_no_raise _ _ _ Hg).
  - discriminate.
Qed.

Lemma loop_body_no_raise (fuel : nat) (ddds : list string) (dedup : bool)
    (st : LoopState) (w : World) (e : exn) :
  ddds <> [] -> loop_body fuel ddds dedup st w <> Raise e.
Proof.
  intros Hne. unfold loop_body, bind, lift.
  destruct (pick_ddd_nth ddds (i st) Hne) as [-> _].
  destruct (gen_number_for_ddd fuel _ w) as [[row w1]| |] eqn:Hg.
  - destruct (dedup && _); discriminate.
  - exfalso. exact (gen_number_for_ddd_no_raise _ _ _ _ Hg).
  - discriminate.
Qed.

Lemma generate_loop_no_raise (fuel : nat) (ddds : list string) (qtd : Z)
    (dedup : bool) (m : Z) (e : exn) (n : nat) :
  ddds <> [] ->
  forall st w, generate_loop n fuel ddds qtd dedup m st w <> Raise e.
Proof.
  intros Hne. induction n as [|n IH]; intros st w; rewrite generate_loop_unfold;
    destruct (loop_cond qtd m st); try discriminate.
  unfold bind.
  destruct (loop_body fuel ddds dedup st w) as [[st1 w1]| |] eqn:Hb.
  - apply IH.
  - exfalso. exact (loop_body_no_raise _ _ _ _ _ _ Hne Hb).
  - discriminate.
Qed.

Lemma generate_no_raise (fuel : nat) (ddds : list string) (qtd : Z)
    (dedup : bool) (w : World) (e : exn) :
  ddds <> [] -> generate fuel ddds qtd dedup w <> Raise e.
Proof.
  intros Hne. unfold generate, bind.
  destruct (generate_loop fuel fuel ddds qtd dedup (max_attempts_of qtd)
              loop_init w) as [[st w1]| |] eqn:Hl.
  - destruct (len_list (results st) <? qtd); discriminate.
  - exfalso. exact (generate_loop_no_raise _ _ _ _ _ _ _ Hne _ _ Hl).
  - discriminate.
Qed.

End NoRaise.

(** X16.  With a non-empty list of area codes, no [ValueError], [IndexError]
    or [ZeroDivisionError] ever leaves [generate], whatever the quantity,
    the flag and the entropy stream: the digits it draws are always
    convertible, and its indices are always in range. *)
Theorem generate_never_raises (fuel : nat) (ddds : list string) (qtd : Z)
    (dedup : bool) (w : World) (e : exn) :
  ddds <> [] -> generate fuel ddds qtd dedup w <> Raise e.
Proof. apply generate_no_raise. Qed.

Lemma generate_never_raises_witness :
  generate 3 ["11"] 5 true (world_of tape_nines_then_zero)
  <> Raise ZeroDivisionError.
Proof.
  apply (generate_never_raises 3 ["11"] 5 true (world_of tape_nines_then_zero)).
  discriminate.
Defined.


